(** * WTF::CheckedPtr: a shallow embedding and its counting discipline

    Source: Source/WTF/wtf/CheckedPtr.h.

    A [CheckedPtr<T, PtrTraits>] has one field, [m_ptr].  Its member
    functions read and write that field and call
    [incrementPtrCount] / [decrementPtrCount] on the pointee.  The embedding
    keeps a store of the live [CheckedPtr] and [CheckedRef] objects (keyed by
    the identity of the object, so that [this] and [other] may alias), the
    outstanding count of every live pointee, and a log of the count and
    store events in program order.

    The [CHECKED_POINTER_DEBUG] blocks are compiled out on the default path
    and are not part of the embedding. *)

From stdpp Require Import gmap list fin_maps.

Local Open Scope Z_scope.

(** ** Addresses, object identities, events, machine state *)

(** A raw [T*]; [nullptr] is address 0. *)
Abbreviation addr := Z (only parsing).
Definition nullptr : addr := 0.

(** The identity (address) of a CheckedPtr or CheckedRef object. *)
Abbreviation ident := positive (only parsing).

Inductive event : Type :=
| EvIncrement (p : addr)            (* p->incrementPtrCount() *)
| EvDecrement (p : addr)            (* p->decrementPtrCount() *)
| EvStore (x : ident) (v : addr).   (* m_ptr of the CheckedPtr x written with v *)

Record state : Type := State {
  counts : gmap Z Z;          (* live pointees, each with its outstanding count *)
  ptrs   : gmap positive Z;   (* live CheckedPtr objects: their m_ptr *)
  refs   : gmap positive Z;   (* live CheckedRef objects: their m_ptr *)
  trace  : list event         (* events so far, oldest first *)
}.

Definition set_counts (f : gmap Z Z -> gmap Z Z) (s : state) : state :=
  State (f (counts s)) (ptrs s) (refs s) (trace s).
Definition set_ptrs (f : gmap positive Z -> gmap positive Z) (s : state) : state :=
  State (counts s) (f (ptrs s)) (refs s) (trace s).
Definition set_refs (f : gmap positive Z -> gmap positive Z) (s : state) : state :=
  State (counts s) (ptrs s) (f (refs s)) (trace s).
Definition log (e : event) (s : state) : state :=
  State (counts s) (ptrs s) (refs s) (trace s ++ [e]).

(** ** Outcomes and the state-and-failure monad *)

Inductive outcome (A : Type) : Type :=
| Done (a : A)
| AssertionFailure        (* an ASSERT fired *)
| UndefinedBehavior.      (* the C++ program has no defined meaning here *)
Arguments Done {A} a.
Arguments AssertionFailure {A}.
Arguments UndefinedBehavior {A}.

Definition M (A : Type) : Type := state -> outcome (A * state).

Definition ret {A} (a : A) : M A := fun s => Done (a, s).
Definition bind {A B} (m : M A) (k : A -> M B) : M B :=
  fun s => match m s with
           | Done (a, s') => k a s'
           | AssertionFailure => AssertionFailure
           | UndefinedBehavior => UndefinedBehavior
           end.
Definition undefined {A} : M A := fun _ => UndefinedBehavior.
Definition assertion_failure {A} : M A := fun _ => AssertionFailure.

Declare Scope cpp_scope.
Delimit Scope cpp_scope with cpp.
Notation "'let*' x := c 'in' k" := (bind c (fun x => k))
  (at level 10, x name, c at level 100, k at level 200) : cpp_scope.
Notation "c ;; k" := (bind c (fun _ => k))
  (at level 100, k at level 200, right associativity) : cpp_scope.
Local Open Scope cpp_scope.

(** Final state and result of a run, when there is one. *)
Definition final {A} (o : outcome (A * state)) : option state :=
  match o with Done (_, s) => Some s | _ => None end.

(** ** Build configuration *)

(** Modelled from the spec: the [ASSERT] macro (wtf/Assertions.h, not part of
    the sources at hand) is a debug-only assertion: it is checked when
    assertions are compiled in and expands to nothing otherwise. *)
Class BuildConfig : Type := { ASSERT_ENABLED : bool }.

(** Modelled from the spec: [ASSERT(cond)], "a debug-only assertion, not a
    recoverable error". *)
Definition ASSERT `{BuildConfig} (cond : bool) : M unit :=
  if ASSERT_ENABLED then (if cond then ret tt else assertion_failure) else ret tt.

(** Contextual conversion of a raw pointer to bool. *)
Definition to_bool (p : addr) : bool := negb (p =? nullptr).

(** ** The pointee: the counted-target contract *)

(** Modelled from the spec: the pointee "must expose three operations -
    increment its outstanding-reference count, decrement it" (the third, the
    check at destruction, is not used by CheckedPtr.h).  The class that
    implements them, CanMakeCheckedPtr in wtf/CheckedRef.h, is not part of
    the sources at hand.  Calling either through a pointer to no live object
    is undefined. *)
Definition incrementPtrCount (p : addr) : M unit :=
  fun s => match counts s !! p with
           | Some c => Done (tt, log (EvIncrement p) (set_counts <[p := c + 1]> s))
           | None => UndefinedBehavior
           end.

(** Modelled from the spec: the second operation of the counted-target
    contract, "decrement it". *)
Definition decrementPtrCount (p : addr) : M unit :=
  fun s => match counts s !! p with
           | Some c => Done (tt, log (EvDecrement p) (set_counts <[p := c - 1]> s))
           | None => UndefinedBehavior
           end.

(** ** Storage of CheckedPtr objects *)

(** Read [x.m_ptr]. *)
Definition load (x : ident) : M addr :=
  fun s => match ptrs s !! x with
           | Some v => Done (v, s)
           | None => UndefinedBehavior
           end.

(** Write [x.m_ptr] of a live object. *)
Definition store (x : ident) (v : addr) : M unit :=
  fun s => match ptrs s !! x with
           | Some _ => Done (tt, log (EvStore x v) (set_ptrs <[x := v]> s))
           | None => UndefinedBehavior
           end.

(** Member initialiser [m_ptr { v }] of the object being constructed at [x]
    (a declaration, or a placement new over existing storage). *)
Definition init (x : ident) (v : addr) : M unit :=
  fun s => Done (tt, log (EvStore x v) (set_ptrs <[x := v]> s)).

(** Storage for a local CheckedPtr variable: an identity no live object has. *)
Definition alloca : M ident :=
  fun s => Done (fresh (dom (ptrs s)), s).

(** End of the lifetime of the object at [x]. *)
Definition dealloc (x : ident) : M unit :=
  fun s => match ptrs s !! x with
           | Some _ => Done (tt, set_ptrs (delete x) s)
           | None => UndefinedBehavior
           end.

(** Binding a [T&] to [*p]. *)
Definition deref (p : addr) : M addr :=
  if to_bool p then ret p else undefined.

(** ** RawPtrTraits, the default storage strategy *)

Module RawPtrTraits.

(** Modelled from the spec: the storage strategy "may be a raw address or a
    packed/tagged representation"; this is the raw-address one
    (wtf/RawPtrTraits.h, not part of the sources at hand).  Its
    StorageType is [T*] and [unwrap] is the identity. *)
Definition unwrap (v : addr) : addr := v.

(** Modelled from the spec: [exchange] of the raw-address strategy is
    [std::exchange] on the slot. *)
Definition exchange (x : ident) (new : addr) : M addr :=
  let* old := load x in store x new ;; ret old.

(** Modelled from the spec: [swap] of the raw-address strategy is
    [std::swap] on the two slots. *)
Definition swap (a b : ident) : M unit :=
  let* va := load a in let* vb := load b in store a vb ;; store b va.

(** Modelled from the spec: "a reserved deleted encoding distinguishable
    from both null and any valid pointer": the all-ones address,
    [static_cast<uintptr_t>(-1)], here for 64-bit pointers. *)
Definition hashTableDeletedValue : addr := Z.ones 64.

(** Modelled from the spec: the test for the reserved encoding, a comparison
    with it. *)
Definition isHashTableDeletedValue (v : addr) : bool :=
  v =? hashTableDeletedValue.

End RawPtrTraits.

(** [std::exchange(m_ptr, v)]. *)
Definition std_exchange (x : ident) (new : addr) : M addr :=
  let* old := load x in store x new ;; ret old.

(** ** CheckedRef, the non-null sibling *)

Module CheckedRef.

(** Modelled from the spec: wtf/CheckedRef.h is not part of the sources at
    hand.  CheckedPtr.h reads [other.m_ptr], calls [other.releasePtr()]
    and builds [CheckedRef { ptr, CheckedRef<T>::Adopt }].  This is the read
    of [other.m_ptr], "one storage slot holding a pointer". *)
Definition load (r : ident) : M addr :=
  fun s => match refs s !! r with
           | Some v => Done (v, s)
           | None => UndefinedBehavior
           end.

(** Modelled from the spec: "Construct(raw pointer): precondition: pointer
    is non-null; increments the pointee's count". *)
Definition ctor (this : ident) (object : addr) : M unit :=
  fun s => bind (incrementPtrCount object)
                (fun _ => ret tt) (set_refs <[this := object]> s).

(** Modelled from the spec: "Construct-adopting(raw pointer): ... does not
    increment (the increment already exists)". *)
Definition ctor_adopt (this : ident) (object : addr) : M unit :=
  fun s => Done (tt, set_refs <[this := object]> s).

(** Modelled from the spec: "Release: detaches and returns the raw pointer
    without decrementing". *)
Definition releasePtr (this : ident) : M addr :=
  fun s => match refs s !! this with
           | Some v => Done (v, set_refs <[this := nullptr]> s)
           | None => UndefinedBehavior
           end.

(** Modelled from the spec: "any instance holding an increment must
    decrement exactly once, exactly when it stops referencing that pointee
    (via destruction, reset, or consuming release)": the destructor of a
    reference that was not released decrements. *)
Definition dtor (this : ident) : M unit :=
  fun s => match refs s !! this with
           | Some v =>
               bind (if to_bool v then decrementPtrCount v else ret tt)
                    (fun _ => ret tt) (set_refs (delete this) s)
           | None => UndefinedBehavior
           end.

End CheckedRef.

(** ** CheckedPtr *)

Module CheckedPtr.

(** The value of [&CheckedPtr::unspecifiedBoolTypeInstance]: the one non-null
    inhabitant of [UnspecifiedBoolType], a pointer to member function.  The
    type has no arithmetic and no order: it can only be tested. *)
Inductive UnspecifiedBoolType : Type :=
| unspecifiedBoolTypeInstance
| UnspecifiedBoolType_nullptr.

(** [refIfNotNull()], lines 238-242. *)
Definition refIfNotNull (this : ident) : M unit :=
  let* m_ptr := load this in
  let ptr := RawPtrTraits.unwrap m_ptr in
  if to_bool ptr then incrementPtrCount ptr else ret tt.

(** [derefIfNotNull()], lines 244-248. *)
Definition derefIfNotNull (this : ident) : M unit :=
  let* m_ptr := load this in
  let ptr := RawPtrTraits.unwrap m_ptr in
  if to_bool ptr then decrementPtrCount ptr else ret tt.

(** [unregisterCheckedPtrIfNecessary()], lines 250-259: empty under the
    default build, the body is inside [#if CHECKED_POINTER_DEBUG]. *)
Definition unregisterCheckedPtrIfNecessary (this : ident) : M unit := ret tt.

(** [CheckedPtr()], lines 45-47. *)
Definition ctor_default (this : ident) : M unit := init this nullptr.

(** [CheckedPtr(std::nullptr_t)], lines 49-51. *)
Definition ctor_nullptr (this : ident) : M unit := init this nullptr.

(** [CheckedPtr(T* ptr)], lines 53-61. *)
Definition ctor_raw (this : ident) (ptr : addr) : M unit :=
  init this ptr ;; refIfNotNull this.

(** [CheckedPtr(const CheckedPtr& other)], lines 63-71. *)
Definition ctor_copy (this other : ident) : M unit :=
  let* v := load other in
  init this v ;; refIfNotNull this.

(** [CheckedPtr(CheckedPtr&& other)], lines 73-80. *)
Definition ctor_move (this other : ident) : M unit :=
  let* v := RawPtrTraits.exchange other nullptr in
  init this v.

(** [~CheckedPtr()], lines 82-89, followed by the end of the object's
    lifetime. *)
Definition dtor (this : ident) : M unit :=
  derefIfNotNull this ;; dealloc this.

(** [CheckedPtr(const CheckedPtr<OtherType, OtherPtrTraits>& other)],
    lines 91-93: it delegates to [CheckedPtr(T* ptr)]. *)
Definition ctor_copy_converting (this other : ident) : M unit :=
  let* v := load other in
  ctor_raw this (RawPtrTraits.unwrap v).

(** [CheckedPtr(CheckedPtr<OtherType, OtherPtrTraits>&& other)],
    lines 95-102. *)
Definition ctor_move_converting (this other : ident) : M unit :=
  let* v := RawPtrTraits.exchange other nullptr in
  init this v.

(** [CheckedPtr(CheckedRef<T, PtrTraits>& other)], lines 104-106, and the
    converting [CheckedPtr(const CheckedRef<OtherType, OtherPtrTraits>&)],
    lines 108-110: both delegate to [CheckedPtr(T* ptr)]. *)
Definition ctor_from_ref (this other : ident) : M unit :=
  let* v := CheckedRef.load other in
  ctor_raw this (RawPtrTraits.unwrap v).

(** [T* get() const], line 143. *)
Definition get (this : ident) : M addr :=
  let* m_ptr := load this in ret (RawPtrTraits.unwrap m_ptr).

(** [CheckedPtr(CheckedRef<T, PtrTraits>&& other)], lines 112-120, and its
    converting form, lines 122-129. *)
Definition ctor_from_ref_move `{BuildConfig} (this other : ident) : M unit :=
  let* v := CheckedRef.releasePtr other in
  init this v ;;
  let* p := get this in
  ASSERT (to_bool p).

(** [CheckedPtr(HashTableDeletedValueType)], lines 131-133. *)
Definition ctor_deleted (this : ident) : M unit :=
  init this RawPtrTraits.hashTableDeletedValue.

(** [bool isHashTableDeletedValue() const], line 135. *)
Definition isHashTableDeletedValue (this : ident) : M bool :=
  let* m_ptr := load this in ret (RawPtrTraits.isHashTableDeletedValue m_ptr).

(** [operator UnspecifiedBoolType() const], lines 138-139. *)
Definition operator_UnspecifiedBoolType (this : ident) : M UnspecifiedBoolType :=
  let* m_ptr := load this in
  ret (if to_bool m_ptr then unspecifiedBoolTypeInstance
       else UnspecifiedBoolType_nullptr).

(** [explicit operator bool() const], line 141. *)
Definition operator_bool (this : ident) : M bool :=
  let* m_ptr := load this in ret (to_bool (RawPtrTraits.unwrap m_ptr)).

(** [T& operator*() const], line 144; the reference is given by its
    address. *)
Definition operator_star `{BuildConfig} (this : ident) : M addr :=
  let* m_ptr := load this in
  ASSERT (to_bool m_ptr) ;;
  let* p := get this in
  deref p.

(** [T* operator->() const], line 145. *)
Definition operator_arrow (this : ident) : M addr := get this.

(** [CheckedRef<T> releaseNonNull()], lines 147-155; [result] is where the
    returned CheckedRef is constructed. *)
Definition releaseNonNull `{BuildConfig} (this result : ident) : M unit :=
  let* m_ptr := load this in
  ASSERT (to_bool m_ptr) ;;
  let* old := std_exchange this nullptr in
  let* ptr := deref (RawPtrTraits.unwrap old) in
  CheckedRef.ctor_adopt result ptr.

(** [bool operator==(const T* other) const] and the [U*] template,
    lines 157-158. *)
Definition operator_eq_raw (this : ident) (other : addr) : M bool :=
  let* m_ptr := load this in ret (m_ptr =? other).

(** [bool operator==(const CheckedPtr& other) const] and the converting
    template, lines 160-163. *)
Definition operator_eq (this other : ident) : M bool :=
  let* m_ptr := load this in
  let* other_m_ptr := load other in
  ret (m_ptr =? other_m_ptr).

(** [CheckedPtr& operator=(std::nullptr_t)], lines 165-171. *)
Definition assign_nullptr (this : ident) : M unit :=
  unregisterCheckedPtrIfNecessary this ;;
  derefIfNotNull this ;;
  store this nullptr.

(** [CheckedPtr& operator=(T* ptr)], lines 173-183; [copy] is destroyed
    when the function returns. *)
Definition assign_raw (this : ident) (ptr : addr) : M unit :=
  unregisterCheckedPtrIfNecessary this ;;
  let* copy := alloca in
  ctor_raw copy ptr ;;
  RawPtrTraits.swap this copy ;;
  dtor copy.

(** [CheckedPtr& operator=(const CheckedPtr& other)], lines 185-195. *)
Definition assign_copy (this other : ident) : M unit :=
  unregisterCheckedPtrIfNecessary this ;;
  let* copy := alloca in
  ctor_copy copy other ;;
  RawPtrTraits.swap this copy ;;
  dtor copy.

(** [CheckedPtr& operator=(const CheckedPtr<OtherType, OtherPtrTraits>&)],
    lines 197-207. *)
Definition assign_copy_converting (this other : ident) : M unit :=
  unregisterCheckedPtrIfNecessary this ;;
  let* copy := alloca in
  ctor_copy_converting copy other ;;
  RawPtrTraits.swap this copy ;;
  dtor copy.

(** [CheckedPtr& operator=(CheckedPtr&& other)], lines 209-219. *)
Definition assign_move (this other : ident) : M unit :=
  unregisterCheckedPtrIfNecessary this ;;
  let* moved := alloca in
  ctor_move moved other ;;
  RawPtrTraits.swap this moved ;;
  dtor moved.

(** [CheckedPtr& operator=(CheckedPtr<OtherType, OtherPtrTraits>&& other)],
    lines 221-231. *)
Definition assign_move_converting (this other : ident) : M unit :=
  unregisterCheckedPtrIfNecessary this ;;
  let* moved := alloca in
  ctor_move_converting moved other ;;
  RawPtrTraits.swap this moved ;;
  dtor moved.

End CheckedPtr.

(** ** Hash-table traits *)

Module SimpleClassHashTraits.

(** Modelled from the spec: wtf/HashTraits.h is not part of the sources at
    hand.  The deleted value of a slot is the one built from
    [HashTableDeletedValue]: [isDeletedValue] asks the slot. *)
Definition isDeletedValue (value : ident) : M bool :=
  CheckedPtr.isHashTableDeletedValue value.

(** Modelled from the spec: [constructDeletedValue] is a placement new of
    [CheckedPtr(HashTableDeletedValue)] over the slot, "overwriting the slot
    with the deleted sentinel". *)
Definition constructDeletedValue (slot : ident) : M unit :=
  CheckedPtr.ctor_deleted slot.

End SimpleClassHashTraits.

Module HashTraits.

(** [HashTraits<CheckedPtr<P>>::emptyValue()], line 289. *)
Definition emptyValue : addr := nullptr.

(** [peek(const CheckedPtr<P>&)], line 292. *)
Definition peek (value : ident) : M addr := CheckedPtr.get value.

(** [customDeleteBucket(CheckedPtr<P>& value)], lines 295-301;
    [valueToBeDestroyed] is destroyed when the function returns. *)
Definition customDeleteBucket `{BuildConfig} (value : ident) : M unit :=
  let* deleted := SimpleClassHashTraits.isDeletedValue value in
  ASSERT (negb deleted) ;;
  let* valueToBeDestroyed := alloca in
  CheckedPtr.ctor_move valueToBeDestroyed value ;;
  SimpleClassHashTraits.constructDeletedValue value ;;
  CheckedPtr.dtor valueToBeDestroyed.

End HashTraits.

(** ** Programs: sequences of operations on checked pointers *)

(** One statement of a client program.  [x], [y] name CheckedPtr objects,
    [r] names CheckedRef objects, [p] is a raw pointer. *)
Inductive op : Type :=
| Construct (x : ident)                      (* CheckedPtr x; *)
| ConstructNull (x : ident)                  (* CheckedPtr x { nullptr }; *)
| ConstructRaw (x : ident) (p : addr)        (* CheckedPtr x { p }; *)
| Copy (x y : ident)                         (* CheckedPtr x { y }; *)
| CopyConverting (x y : ident)               (* CheckedPtr<Base> x { y }; *)
| Move (x y : ident)                         (* CheckedPtr x { WTFMove(y) }; *)
| MoveConverting (x y : ident)               (* CheckedPtr<Base> x { WTFMove(y) }; *)
| ConstructFromRef (x r : ident)             (* CheckedPtr x { r }; *)
| ConstructFromRefMove (x r : ident)         (* CheckedPtr x { WTFMove(r) }; *)
| Reset (x : ident)                          (* x = nullptr; *)
| AssignRaw (x : ident) (p : addr)           (* x = p; *)
| AssignCopy (x y : ident)                   (* x = y; *)
| AssignCopyConverting (x y : ident)
| AssignMove (x y : ident)                   (* x = WTFMove(y); *)
| AssignMoveConverting (x y : ident)
| ReleaseNonNull (x r : ident)               (* CheckedRef r = x.releaseNonNull(); *)
| Destroy (x : ident)                        (* x goes out of scope *)
| RefConstruct (r : ident) (p : addr)        (* CheckedRef r { *p }; *)
| RefDestroy (r : ident).                    (* r goes out of scope *)

(** A declaration introduces a new object. *)
Definition declare (x : ident) : M unit :=
  fun s => match ptrs s !! x with
           | None => Done (tt, s)
           | Some _ => UndefinedBehavior
           end.

Definition declare_ref (r : ident) : M unit :=
  fun s => match refs s !! r with
           | None => Done (tt, s)
           | Some _ => UndefinedBehavior
           end.

Definition exec `{BuildConfig} (o : op) : M unit :=
  match o with
  | Construct x => declare x ;; CheckedPtr.ctor_default x
  | ConstructNull x => declare x ;; CheckedPtr.ctor_nullptr x
  | ConstructRaw x p => declare x ;; CheckedPtr.ctor_raw x p
  | Copy x y => declare x ;; CheckedPtr.ctor_copy x y
  | CopyConverting x y => declare x ;; CheckedPtr.ctor_copy_converting x y
  | Move x y => declare x ;; CheckedPtr.ctor_move x y
  | MoveConverting x y => declare x ;; CheckedPtr.ctor_move_converting x y
  | ConstructFromRef x r => declare x ;; CheckedPtr.ctor_from_ref x r
  | ConstructFromRefMove x r => declare x ;; CheckedPtr.ctor_from_ref_move x r
  | Reset x => CheckedPtr.assign_nullptr x
  | AssignRaw x p => CheckedPtr.assign_raw x p
  | AssignCopy x y => CheckedPtr.assign_copy x y
  | AssignCopyConverting x y => CheckedPtr.assign_copy_converting x y
  | AssignMove x y => CheckedPtr.assign_move x y
  | AssignMoveConverting x y => CheckedPtr.assign_move_converting x y
  | ReleaseNonNull x r => declare_ref r ;; CheckedPtr.releaseNonNull x r
  | Destroy x => CheckedPtr.dtor x
  | RefConstruct r p => declare_ref r ;; deref p ;; CheckedRef.ctor r p
  | RefDestroy r => CheckedRef.dtor r
  end.

Fixpoint run `{BuildConfig} (prog : list op) : M unit :=
  match prog with
  | [] => ret tt
  | o :: prog' => exec o ;; run prog'
  end.

(** ** The counting invariant *)

(** How many objects of a store hold [p]. *)
Definition holders (p : addr) (m : gmap positive Z) : nat :=
  size (filter (fun kv => kv.2 = p) m).

(** The checked pointers and references that currently target [p]. *)
Definition live_targeting (p : addr) (s : state) : nat :=
  (holders p (ptrs s) + holders p (refs s))%nat.

(** Every live pointee's count is the number of checked pointers and
    references targeting it. *)
Definition counted (s : state) : Prop :=
  map_Forall (fun p c => p <> nullptr -> c = Z.of_nat (live_targeting p s))
             (counts s).

#[global] Instance counted_dec s : Decision (counted s).
Proof. unfold counted. apply _. Defined.

(** A pointee at address [p] with no checked pointer or reference yet. *)
Definition fresh_pointee (p : addr) : state :=
  State {[ p := 0 ]} ∅ ∅ [].

(** * Vocabulary of the properties *)

(** 1 when a slot value [v] targets [p], else 0. *)
Definition ind (v p : addr) : Z := if decide (v = p) then 1 else 0.

(** The slot value [x] holds, 0 when there is no such object: what an
    overwrite of [x] stops charging. *)
Definition held (m : gmap positive Z) (x : ident) (p : addr) : Z :=
  match m !! x with Some w => ind w p | None => 0 end.

(** The scenario of the specification, up to the move: pointee at address 16;
    [CheckedPtr a { p }; CheckedPtr b { a }; CheckedPtr c { WTFMove(b) };]. *)
Definition scenario : list op :=
  [ConstructRaw 1 16; Copy 2 1; Move 3 2].

(** The state that scenario ends in. *)
Definition scenario_state : state :=
  State {[ 16 := 2 ]} {[ 1%positive := 16; 2%positive := 0; 3%positive := 16 ]} ∅
        [EvStore 1 16; EvIncrement 16; EvStore 2 16; EvIncrement 16;
         EvStore 2 0; EvStore 3 16].

(** The two builds. *)
Definition debug_build : BuildConfig := {| ASSERT_ENABLED := true |}.
Definition release_build : BuildConfig := {| ASSERT_ENABLED := false |}.

(** A slot value the counting calls are defined on: null, or the address of a
    live pointee. *)
Definition valid_target (s : state) (v : Z) : Prop :=
  v = nullptr \/ is_Some (counts s !! v).

(** The count events of [refIfNotNull] and [derefIfNotNull] on a slot that
    holds [v]. *)
Definition incr_events (v : Z) : list event :=
  if to_bool v then [EvIncrement v] else [].
Definition decr_events (v : Z) : list event :=
  if to_bool v then [EvDecrement v] else [].

(** The counts after the pointee of [v], if any, was decremented once, and
    after it was incremented once. *)
Definition released (v : Z) (m : gmap Z Z) : gmap Z Z :=
  if to_bool v then
    match m !! v with Some c => <[v := c - 1]> m | None => m end
  else m.
Definition acquired (v : Z) (m : gmap Z Z) : gmap Z Z :=
  if to_bool v then
    match m !! v with Some c => <[v := c + 1]> m | None => m end
  else m.

(** Every checked pointer and checked reference holds null or the address of
    a live pointee. *)
Definition sound (s : state) : Prop :=
  map_Forall (fun _ v => valid_target s v) (ptrs s)
  /\ map_Forall (fun _ v => valid_target s v) (refs s).

(** The object named [x] exists and is non-null. *)
Definition nonnull_at (m : gmap positive Z) (x : positive) : Prop :=
  match m !! x with Some v => v <> nullptr | None => False end.

(** What a statement needs of the state it runs in: declared names are new,
    used names exist, raw pointers are null or point to a live pointee, and
    the preconditions of the asserting operations hold. *)
Definition wf_op (s : state) (o : op) : Prop :=
  match o with
  | Construct x | ConstructNull x => ptrs s !! x = None
  | ConstructRaw x p => ptrs s !! x = None /\ valid_target s p
  | Copy x y | CopyConverting x y | Move x y | MoveConverting x y =>
      ptrs s !! x = None /\ is_Some (ptrs s !! y)
  | ConstructFromRef x r => ptrs s !! x = None /\ is_Some (refs s !! r)
  | ConstructFromRefMove x r => ptrs s !! x = None /\ nonnull_at (refs s) r
  | Reset x | Destroy x => is_Some (ptrs s !! x)
  | AssignRaw x p => is_Some (ptrs s !! x) /\ valid_target s p
  | AssignCopy x y | AssignCopyConverting x y
  | AssignMove x y | AssignMoveConverting x y =>
      is_Some (ptrs s !! x) /\ is_Some (ptrs s !! y)
  | ReleaseNonNull x r => refs s !! r = None /\ nonnull_at (ptrs s) x
  | RefConstruct r p =>
      refs s !! r = None /\ p <> nullptr /\ is_Some (counts s !! p)
  | RefDestroy r => is_Some (refs s !! r)
  end.

(** A program each statement of which is well-formed in the state the
    statements before it lead to. *)
Fixpoint wf_prog `{BuildConfig} (prog : list op) (s : state) : Prop :=
  match prog with
  | [] => True
  | o :: prog' =>
      wf_op s o
      /\ match exec o s with
         | Done (_, s') => wf_prog prog' s'
         | _ => True
         end
  end.

#[global] Instance valid_target_dec s v : Decision (valid_target s v).
Proof. unfold valid_target. apply _. Defined.

#[global] Instance sound_dec s : Decision (sound s).
Proof. unfold sound. apply _. Defined.

#[global] Instance nonnull_at_dec m x : Decision (nonnull_at m x).
Proof. unfold nonnull_at. destruct (m !! x); apply _. Defined.

#[global] Instance wf_op_dec s o : Decision (wf_op s o).
Proof. destruct o; simpl; apply _. Defined.

#[global] Instance wf_prog_dec `{BuildConfig} prog s : Decision (wf_prog prog s).
Proof.
  revert s. induction prog as [| o prog IH]; intros s; simpl; [apply _ |].
  destruct (exec o s) as [[u s'] | |]; apply _.
Defined.

(** The assignment as the specification words it: it "constructs a temporary
    replacement value first, then exchanges it with the current slot, then
    lets the temporary's destruction release the old value". *)
Definition assign_by_copy_and_swap
    (construct : positive -> M unit) (this : positive) : M unit :=
  let* replacement := alloca in
  construct replacement ;;
  RawPtrTraits.swap this replacement ;;
  CheckedPtr.dtor replacement.

(** The successive values of the count of [p], starting from [c], as the
    events of [t] happen. *)
Fixpoint count_history (p c : Z) (t : list event) : list Z :=
  match t with
  | [] => []
  | EvIncrement q :: t' =>
      if decide (q = p) then (c + 1) :: count_history p (c + 1) t'
      else count_history p c t'
  | EvDecrement q :: t' =>
      if decide (q = p) then (c - 1) :: count_history p (c - 1) t'
      else count_history p c t'
  | EvStore _ _ :: t' => count_history p c t'
  end.

(** The count of [p] is above zero after every event of [t]. *)
Definition never_zero (p c : Z) (t : list event) : Prop :=
  Forall (fun n => 0 < n) (count_history p c t).

(** Events can be compared. *)
#[global] Instance event_eq_dec : EqDecision event.
Proof. solve_decision. Defined.

(** [e1] happens before [e2] in [t]. *)
Fixpoint before (e1 e2 : event) (t : list event) : bool :=
  match t with
  | [] => false
  | e :: t' => (bool_decide (e = e1) && bool_decide (e2 ∈ t')) || before e1 e2 t'
  end.

(** A pointee at address 16 held by one checked pointer. *)
Definition one_holder : state :=
  State {[ 16 := 1 ]} {[ 1%positive := 16 ]} ∅ [].

(** A pointee at address 16 held by two checked pointers. *)
Definition two_holders : state :=
  State {[ 16 := 2 ]} {[ 1%positive := 16; 2%positive := 16 ]} ∅ [].

(** One null checked pointer. *)
Definition null_slot : state := State ∅ {[ 1%positive := nullptr ]} ∅ [].

(** The count of [p] after the events of [t], starting from [c]. *)
Fixpoint replay (p c : Z) (t : list event) : Z :=
  match t with
  | [] => c
  | EvIncrement q :: t' => replay p (if decide (q = p) then c + 1 else c) t'
  | EvDecrement q :: t' => replay p (if decide (q = p) then c - 1 else c) t'
  | EvStore _ _ :: t' => replay p c t'
  end.

(** * Properties *)

(** First the helper lemmas: counting, successful runs read backwards
    (inversion) and forwards (run equations).  Then the properties C1 to C10
    of the specification. *)

(** ** Counting the holders of a pointee *)

Lemma holders_empty p : holders p ∅ = 0%nat.
Proof. unfold holders. by rewrite map_filter_empty, map_size_empty. Qed.

Lemma holders_insert_fresh p x v (m : gmap positive Z) :
  m !! x = None ->
  Z.of_nat (holders p (<[x := v]> m)) = Z.of_nat (holders p m) + ind v p.
Proof.
  intros Hx. unfold holders, ind.
  destruct (decide (v = p)) as [Hv | Hv].
  - rewrite map_filter_insert_True by done.
    rewrite map_size_insert_None; [lia |].
    apply map_lookup_filter_None. by left.
  - rewrite map_filter_insert_False by done.
    rewrite delete_id by done. lia.
Qed.

Lemma holders_delete p x w (m : gmap positive Z) :
  m !! x = Some w ->
  Z.of_nat (holders p (delete x m)) = Z.of_nat (holders p m) - ind w p.
Proof.
  intros Hx.
  rewrite <- (insert_delete_id m x w Hx) at 2.
  rewrite holders_insert_fresh by apply lookup_delete_eq. lia.
Qed.

Lemma holders_insert p x v w (m : gmap positive Z) :
  m !! x = Some w ->
  Z.of_nat (holders p (<[x := v]> m))
  = Z.of_nat (holders p m) - ind w p + ind v p.
Proof.
  intros Hx. rewrite <- insert_delete_eq.
  rewrite holders_insert_fresh by apply lookup_delete_eq.
  by rewrite (holders_delete p x w).
Qed.

Lemma holders_insert_held p x v (m : gmap positive Z) :
  Z.of_nat (holders p (<[x := v]> m))
  = Z.of_nat (holders p m) - held m x p + ind v p.
Proof.
  unfold held. destruct (m !! x) as [w|] eqn:Hx.
  - by apply holders_insert.
  - rewrite holders_insert_fresh by done. lia.
Qed.

(** ** Inversion of successful runs *)

Lemma bind_Done {A B} (m : M A) (k : A -> M B) s r :
  bind m k s = Done r ->
  exists a s1, m s = Done (a, s1) /\ k a s1 = Done r.
Proof.
  unfold bind. destruct (m s) as [[a s1] | |]; [eauto | discriminate..].
Qed.

Lemma ret_Done {A} (a b : A) s s' : ret a s = Done (b, s') -> b = a /\ s' = s.
Proof. unfold ret. intros [= -> ->]. done. Qed.

Lemma load_Done x s v s' :
  load x s = Done (v, s') -> s' = s /\ ptrs s !! x = Some v.
Proof. unfold load. destruct (ptrs s !! x); naive_solver. Qed.

Lemma store_Done x v s u s' :
  store x v s = Done (u, s') ->
  s' = log (EvStore x v) (set_ptrs <[x := v]> s) /\ is_Some (ptrs s !! x).
Proof. unfold store. destruct (ptrs s !! x); naive_solver. Qed.

Lemma init_Done x v s u s' :
  init x v s = Done (u, s') -> s' = log (EvStore x v) (set_ptrs <[x := v]> s).
Proof. unfold init. congruence. Qed.

Lemma alloca_Done s x s' :
  alloca s = Done (x, s') -> s' = s /\ ptrs s !! x = None.
Proof.
  unfold alloca. intros [= <- <-]. split; [done |].
  apply not_elem_of_dom, is_fresh.
Qed.

Lemma dealloc_Done x s u s' :
  dealloc x s = Done (u, s') ->
  s' = set_ptrs (delete x) s /\ is_Some (ptrs s !! x).
Proof. unfold dealloc. destruct (ptrs s !! x); naive_solver. Qed.

Lemma declare_Done x s u s' :
  declare x s = Done (u, s') -> s' = s /\ ptrs s !! x = None.
Proof. unfold declare. destruct (ptrs s !! x) eqn:E; naive_solver. Qed.

Lemma declare_ref_Done r s u s' :
  declare_ref r s = Done (u, s') -> s' = s /\ refs s !! r = None.
Proof. unfold declare_ref. destruct (refs s !! r) eqn:E; naive_solver. Qed.

Lemma incrementPtrCount_Done p s u s' :
  incrementPtrCount p s = Done (u, s') ->
  exists c, counts s !! p = Some c /\
            s' = log (EvIncrement p) (set_counts <[p := c + 1]> s).
Proof. unfold incrementPtrCount. destruct (counts s !! p); naive_solver. Qed.

Lemma decrementPtrCount_Done p s u s' :
  decrementPtrCount p s = Done (u, s') ->
  exists c, counts s !! p = Some c /\
            s' = log (EvDecrement p) (set_counts <[p := c - 1]> s).
Proof. unfold decrementPtrCount. destruct (counts s !! p); naive_solver. Qed.

Lemma deref_Done p s q s' :
  deref p s = Done (q, s') -> q = p /\ s' = s /\ p <> nullptr.
Proof.
  unfold deref, to_bool. destruct (p =? nullptr) eqn:E; simpl.
  - discriminate.
  - intros [= <- <-]. repeat split. by apply Z.eqb_neq.
Qed.

Lemma ASSERT_Done `{BuildConfig} c s u s' :
  ASSERT c s = Done (u, s') ->
  s' = s /\ (ASSERT_ENABLED = true -> c = true).
Proof.
  unfold ASSERT. destruct ASSERT_ENABLED, c; simpl; try discriminate;
    intros [= <-]; split; congruence.
Qed.

Lemma CheckedRef_load_Done r s v s' :
  CheckedRef.load r s = Done (v, s') -> s' = s /\ refs s !! r = Some v.
Proof. unfold CheckedRef.load. destruct (refs s !! r); naive_solver. Qed.

Lemma CheckedRef_releasePtr_Done r s v s' :
  CheckedRef.releasePtr r s = Done (v, s') ->
  s' = set_refs <[r := nullptr]> s /\ refs s !! r = Some v.
Proof. unfold CheckedRef.releasePtr. destruct (refs s !! r); naive_solver. Qed.

Lemma CheckedRef_ctor_adopt_Done r p s u s' :
  CheckedRef.ctor_adopt r p s = Done (u, s') -> s' = set_refs <[r := p]> s.
Proof. unfold CheckedRef.ctor_adopt. congruence. Qed.

Lemma to_bool_true p : to_bool p = true <-> p <> nullptr.
Proof. unfold to_bool. rewrite negb_true_iff. apply Z.eqb_neq. Qed.

Lemma to_bool_false p : to_bool p = false <-> p = nullptr.
Proof. unfold to_bool. rewrite negb_false_iff. apply Z.eqb_eq. Qed.

Create HintDb cpp discriminated.
#[global] Hint Unfold
  CheckedPtr.refIfNotNull CheckedPtr.derefIfNotNull
  CheckedPtr.unregisterCheckedPtrIfNecessary
  CheckedPtr.ctor_default CheckedPtr.ctor_nullptr CheckedPtr.ctor_raw
  CheckedPtr.ctor_copy CheckedPtr.ctor_move CheckedPtr.dtor
  CheckedPtr.ctor_copy_converting CheckedPtr.ctor_move_converting
  CheckedPtr.ctor_from_ref CheckedPtr.get CheckedPtr.ctor_from_ref_move
  CheckedPtr.ctor_deleted CheckedPtr.isHashTableDeletedValue
  CheckedPtr.operator_UnspecifiedBoolType CheckedPtr.operator_bool
  CheckedPtr.operator_star CheckedPtr.operator_arrow
  CheckedPtr.releaseNonNull CheckedPtr.operator_eq_raw CheckedPtr.operator_eq
  CheckedPtr.assign_nullptr CheckedPtr.assign_raw CheckedPtr.assign_copy
  CheckedPtr.assign_copy_converting CheckedPtr.assign_move
  CheckedPtr.assign_move_converting
  RawPtrTraits.exchange RawPtrTraits.swap RawPtrTraits.unwrap std_exchange
  CheckedRef.ctor CheckedRef.dtor
  SimpleClassHashTraits.isDeletedValue
  SimpleClassHashTraits.constructDeletedValue
  HashTraits.peek HashTraits.customDeleteBucket : cpp.

(** Break a successful run [H : m s = Done (a, s')] into the primitive steps
    it is made of. *)
Ltac minv H :=
  lazymatch type of H with
  | bind _ _ _ = Done _ =>
      let H1 := fresh "Hstep" in
      let H2 := fresh "Hstep" in
      apply bind_Done in H; destruct H as (? & ? & H1 & H2);
      minv H1; minv H2
  | ret _ _ = Done _ => apply ret_Done in H; destruct H as [? ?]; subst
  | load _ _ = Done _ => apply load_Done in H; destruct H as [? H]; subst
  | store _ _ _ = Done _ => apply store_Done in H; destruct H as [? H]; subst
  | init _ _ _ = Done _ => apply init_Done in H; subst
  | alloca _ = Done _ => apply alloca_Done in H; destruct H as [? H]; subst
  | dealloc _ _ = Done _ => apply dealloc_Done in H; destruct H as [? H]; subst
  | declare _ _ = Done _ => apply declare_Done in H; destruct H as [? H]; subst
  | declare_ref _ _ = Done _ =>
      apply declare_ref_Done in H; destruct H as [? H]; subst
  | incrementPtrCount _ _ = Done _ =>
      apply incrementPtrCount_Done in H; destruct H as (? & H & ?); subst
  | decrementPtrCount _ _ = Done _ =>
      apply decrementPtrCount_Done in H; destruct H as (? & H & ?); subst
  | deref _ _ = Done _ => apply deref_Done in H; destruct H as (? & ? & H); subst
  | ASSERT _ _ = Done _ => apply ASSERT_Done in H; destruct H as [? H]; subst
  | CheckedRef.load _ _ = Done _ =>
      apply CheckedRef_load_Done in H; destruct H as [? H]; subst
  | CheckedRef.releasePtr _ _ = Done _ =>
      apply CheckedRef_releasePtr_Done in H; destruct H as [? H]; subst
  | CheckedRef.ctor_adopt _ _ _ = Done _ =>
      apply CheckedRef_ctor_adopt_Done in H; subst
  | (if to_bool ?p then _ else _) _ = Done _ =>
      let E := fresh "Hnull" in
      destruct (to_bool p) eqn:E;
      [apply to_bool_true in E | apply to_bool_false in E]; minv H
  | match ?o with Some _ => _ | None => _ end = Done _ =>
      let E := fresh "Hlook" in
      destruct o eqn:E; [minv H | discriminate H]
  | _ => first [ progress (autounfold with cpp in H; cbv zeta in H); minv H
               | idtac ]
  end.

Lemma holders_delete_held p x (m : gmap positive Z) :
  Z.of_nat (holders p (delete x m)) = Z.of_nat (holders p m) - held m x p.
Proof.
  unfold held. destruct (m !! x) as [w|] eqn:Hx.
  - by apply holders_delete.
  - rewrite delete_id by done. lia.
Qed.

(** ** The counting invariant is kept by every operation *)

Ltac use_counted Hc :=
  repeat match goal with
  | Hp : ?p <> nullptr, H : counts _ !! ?p = Some ?c |- _ =>
      lazymatch goal with
      | _ : c = Z.of_nat (_ + _) |- _ => fail
      | _ => pose proof (Hc p c H Hp)
      end
  end.

Ltac split_lookups :=
  repeat first
    [ rewrite lookup_insert in *
    | rewrite lookup_delete in *
    | match goal with
      | H : context [decide (?a = ?b)] |- _ =>
          destruct (decide (a = b)); simplify_eq
      | |- context [decide (?a = ?b)] =>
          destruct (decide (a = b)); simplify_eq
      end ].

Ltac count_solver Hc :=
  let p := fresh "p" in let c := fresh "c" in
  let Hp := fresh "Hp" in let Hl := fresh "Hl" in
  unfold counted, map_Forall in *; intros p c Hl Hp;
  unfold live_targeting in *; simpl in *;
  rewrite Nat2Z.inj_add;
  rewrite ?holders_delete_held, ?holders_insert_held;
  unfold held, ind; split_lookups;
  repeat match goal with
         | H : ?m !! ?k = _ |- context [?m !! ?k] => rewrite H
         end;
  repeat match goal with
         | |- context [match ?m !! ?k with _ => _ end] => destruct (m !! k) eqn:?
         end;
  use_counted Hc; repeat case_decide; simplify_eq; try lia.

Lemma exec_counted `{BuildConfig} (o : op) (s s' : state) (u : unit) :
  counted s -> exec o s = Done (u, s') -> counted s'.
Proof.
  intros Hc Hrun.
  destruct o; simpl in Hrun; minv Hrun; simpl in *; try done;
    count_solver Hc.
Qed.

Lemma exec_pointees `{BuildConfig} (o : op) (s s' : state) (u : unit) :
  exec o s = Done (u, s') -> dom (counts s') = dom (counts s).
Proof.
  intros Hrun.
  destruct o; simpl in Hrun; minv Hrun; simpl in *; try done;
    rewrite ?dom_insert_lookup_L by eauto; done.
Qed.

Lemma run_counted `{BuildConfig} (prog : list op) (s s' : state) (u : unit) :
  counted s -> run prog s = Done (u, s') ->
  counted s' /\ dom (counts s') = dom (counts s).
Proof.
  revert s. induction prog as [| o prog IH]; intros s Hc Hrun; simpl in Hrun.
  - apply ret_Done in Hrun as [_ ->]. done.
  - apply bind_Done in Hrun as ([] & s1 & Ho & Hrest).
    destruct (IH s1) as [Hc' Hd]; [by eapply exec_counted | done |].
    split; [done |]. rewrite Hd. by eapply exec_pointees.
Qed.

Lemma fresh_pointee_counted p : counted (fresh_pointee p).
Proof.
  intros q c Hl Hq. unfold fresh_pointee, live_targeting in *. simpl in *.
  rewrite holders_empty. simpl.
  apply lookup_singleton_Some in Hl as [_ <-]. done.
Qed.

(** ** Running the operations forward *)

Lemma bind_bind {A B C} (m : M A) (k : A -> M B) (k' : B -> M C) s :
  bind (bind m k) k' s = bind m (fun a => bind (k a) k') s.
Proof. unfold bind. destruct (m s) as [[a s1]| |]; done. Qed.

Lemma bind_ret {A B} (a : A) (k : A -> M B) s : bind (ret a) k s = k a s.
Proof. reflexivity. Qed.

Lemma bind_load {B} x v s (k : Z -> M B) :
  ptrs s !! x = Some v -> bind (load x) k s = k v s.
Proof. intros Hx. unfold bind, load. by rewrite Hx. Qed.

Lemma bind_store {B} x v w s (k : unit -> M B) :
  ptrs s !! x = Some w ->
  bind (store x v) k s = k tt (log (EvStore x v) (set_ptrs <[x := v]> s)).
Proof. intros Hx. unfold bind, store. by rewrite Hx. Qed.

Lemma bind_init {B} x v s (k : unit -> M B) :
  bind (init x v) k s = k tt (log (EvStore x v) (set_ptrs <[x := v]> s)).
Proof. reflexivity. Qed.

Lemma bind_alloca {B} s (k : positive -> M B) :
  bind alloca k s = k (fresh (dom (ptrs s))) s.
Proof. reflexivity. Qed.

Lemma bind_dealloc {B} x w s (k : unit -> M B) :
  ptrs s !! x = Some w ->
  bind (dealloc x) k s = k tt (set_ptrs (delete x) s).
Proof. intros Hx. unfold bind, dealloc. by rewrite Hx. Qed.

Lemma bind_increment {B} p c s (k : unit -> M B) :
  counts s !! p = Some c ->
  bind (incrementPtrCount p) k s
  = k tt (log (EvIncrement p) (set_counts <[p := c + 1]> s)).
Proof. intros Hp. unfold bind, incrementPtrCount. by rewrite Hp. Qed.

Lemma bind_decrement {B} p c s (k : unit -> M B) :
  counts s !! p = Some c ->
  bind (decrementPtrCount p) k s
  = k tt (log (EvDecrement p) (set_counts <[p := c - 1]> s)).
Proof. intros Hp. unfold bind, decrementPtrCount. by rewrite Hp. Qed.

Lemma bind_skip {A} (m : M A) s : m s = bind m ret s.
Proof. unfold bind, ret. destruct (m s) as [[a s1]| |]; done. Qed.

Lemma state_eq (s1 s2 : state) :
  counts s1 = counts s2 -> ptrs s1 = ptrs s2 -> refs s1 = refs s2 ->
  trace s1 = trace s2 -> s1 = s2.
Proof. destruct s1, s2. simpl. congruence. Qed.

Lemma fresh_ptr_None s : ptrs s !! fresh (dom (ptrs s)) = None.
Proof. apply not_elem_of_dom, is_fresh. Qed.

Lemma to_bool_nullptr : to_bool nullptr = false.
Proof. reflexivity. Qed.

Lemma to_bool_nonnull p : p <> nullptr -> to_bool p = true.
Proof. apply to_bool_true. Qed.

Lemma refIfNotNull_run {B} x v s (k : unit -> M B) :
  ptrs s !! x = Some v -> valid_target s v ->
  bind (CheckedPtr.refIfNotNull x) k s
  = k tt (State (acquired v (counts s)) (ptrs s) (refs s)
                (trace s ++ incr_events v)).
Proof.
  intros Hx Hv. unfold CheckedPtr.refIfNotNull, RawPtrTraits.unwrap.
  unfold acquired, incr_events.
  rewrite bind_bind. erewrite bind_load by done. cbv beta zeta.
  destruct (to_bool v) eqn:Hb.
  - apply to_bool_true in Hb. destruct Hv as [-> | [c Hc]]; [done |].
    erewrite bind_increment by done. by rewrite Hc.
  - rewrite bind_ret. destruct s; simpl. by rewrite app_nil_r.
Qed.

Lemma derefIfNotNull_run {B} x v s (k : unit -> M B) :
  ptrs s !! x = Some v -> valid_target s v ->
  bind (CheckedPtr.derefIfNotNull x) k s
  = k tt (State (released v (counts s)) (ptrs s) (refs s)
                (trace s ++ decr_events v)).
Proof.
  intros Hx Hv. unfold CheckedPtr.derefIfNotNull, RawPtrTraits.unwrap.
  unfold released, decr_events.
  rewrite bind_bind. erewrite bind_load by done. cbv beta zeta.
  destruct (to_bool v) eqn:Hb.
  - apply to_bool_true in Hb. destruct Hv as [-> | [c Hc]]; [done |].
    erewrite bind_decrement by done. by rewrite Hc.
  - rewrite bind_ret. destruct s; simpl. by rewrite app_nil_r.
Qed.

Lemma dtor_run {B} x v s (k : unit -> M B) :
  ptrs s !! x = Some v -> valid_target s v ->
  bind (CheckedPtr.dtor x) k s
  = k tt (State (released v (counts s)) (delete x (ptrs s)) (refs s)
                (trace s ++ decr_events v)).
Proof.
  intros Hx Hv. unfold CheckedPtr.dtor.
  rewrite bind_bind. erewrite derefIfNotNull_run by done.
  erewrite bind_dealloc by (simpl; done). done.
Qed.

Lemma swap_run {B} a b va vb s (k : unit -> M B) :
  ptrs s !! a = Some va -> ptrs s !! b = Some vb ->
  bind (RawPtrTraits.swap a b) k s
  = k tt (State (counts s) (<[b := va]> (<[a := vb]> (ptrs s))) (refs s)
                (trace s ++ [EvStore a vb; EvStore b va])).
Proof.
  intros Ha Hb. unfold RawPtrTraits.swap.
  rewrite bind_bind. erewrite bind_load by done. cbv beta.
  rewrite bind_bind. erewrite bind_load by done. cbv beta.
  rewrite bind_bind. erewrite bind_store by done. cbv beta.
  erewrite bind_store.
  - f_equal. apply state_eq; simpl; rewrite <- ?app_assoc; done.
  - simpl. destruct (decide (a = b)) as [-> |].
    + apply lookup_insert_eq.
    + rewrite lookup_insert_ne by done. done.
Qed.

Lemma exchange_run {B} x v new s (k : Z -> M B) :
  ptrs s !! x = Some v ->
  bind (RawPtrTraits.exchange x new) k s
  = k v (State (counts s) (<[x := new]> (ptrs s)) (refs s)
               (trace s ++ [EvStore x new])).
Proof.
  intros Hx. unfold RawPtrTraits.exchange.
  rewrite bind_bind. erewrite bind_load by done. cbv beta.
  rewrite bind_bind. erewrite bind_store by done. cbv beta.
  by rewrite bind_ret.
Qed.

Lemma Done_eq {A} (a : A) (s1 s2 : state) :
  counts s1 = counts s2 -> ptrs s1 = ptrs s2 -> refs s1 = refs s2 ->
  trace s1 = trace s2 -> Done (a, s1) = Done (a, s2).
Proof. intros. f_equal. f_equal. by apply state_eq. Qed.

Lemma cont_eq {A B} (k : A -> M B) (a : A) (s1 s2 : state) :
  counts s1 = counts s2 -> ptrs s1 = ptrs s2 -> refs s1 = refs s2 ->
  trace s1 = trace s2 -> k a s1 = k a s2.
Proof. intros. f_equal. by apply state_eq. Qed.

Ltac state_solver :=
  first [ apply Done_eq | apply cont_eq | apply state_eq ];
  simpl; rewrite <- ?app_assoc; try done.

Lemma valid_target_acquired s v q ps rs t :
  valid_target s v ->
  valid_target (State (acquired q (counts s)) ps rs t) v.
Proof.
  intros [-> | [c Hc]]; [by left | right]. simpl. unfold acquired.
  destruct (to_bool q); [| eauto].
  destruct (counts s !! q) as [cq|] eqn:Hq; [| eauto].
  destruct (decide (q = v)) as [-> |].
  - rewrite lookup_insert_eq. eauto.
  - rewrite lookup_insert_ne by done. eauto.
Qed.

Lemma ctor_raw_run {B} x ptr s (k : unit -> M B) :
  valid_target s ptr ->
  bind (CheckedPtr.ctor_raw x ptr) k s
  = k tt (State (acquired ptr (counts s)) (<[x := ptr]> (ptrs s)) (refs s)
                (trace s ++ EvStore x ptr :: incr_events ptr)).
Proof.
  intros Hv. unfold CheckedPtr.ctor_raw.
  rewrite bind_bind, bind_init. cbv beta.
  erewrite refIfNotNull_run; [| simpl; apply lookup_insert_eq | done].
  state_solver.
Qed.

Lemma ctor_copy_run {B} x other v s (k : unit -> M B) :
  ptrs s !! other = Some v -> valid_target s v ->
  bind (CheckedPtr.ctor_copy x other) k s
  = k tt (State (acquired v (counts s)) (<[x := v]> (ptrs s)) (refs s)
                (trace s ++ EvStore x v :: incr_events v)).
Proof.
  intros Ho Hv. unfold CheckedPtr.ctor_copy.
  rewrite bind_bind. erewrite bind_load by done. cbv beta.
  rewrite bind_bind, bind_init. cbv beta.
  erewrite refIfNotNull_run; [| simpl; apply lookup_insert_eq | done].
  state_solver.
Qed.

Lemma ctor_move_run {B} x other v s (k : unit -> M B) :
  ptrs s !! other = Some v ->
  bind (CheckedPtr.ctor_move x other) k s
  = k tt (State (counts s) (<[x := v]> (<[other := nullptr]> (ptrs s)))
                (refs s) (trace s ++ [EvStore other nullptr; EvStore x v])).
Proof.
  intros Ho. unfold CheckedPtr.ctor_move.
  rewrite bind_bind. erewrite exchange_run by done. cbv beta.
  rewrite bind_init. state_solver.
Qed.

Lemma copy_and_swap_run construct this s s1 new old :
  is_Some (ptrs s !! this) ->
  construct (fresh (dom (ptrs s))) s = Done (tt, s1) ->
  ptrs s1 !! fresh (dom (ptrs s)) = Some new ->
  ptrs s1 !! this = Some old ->
  valid_target s1 old ->
  assign_by_copy_and_swap construct this s
  = Done (tt, State (released old (counts s1))
                    (<[this := new]> (delete (fresh (dom (ptrs s))) (ptrs s1)))
                    (refs s1)
                    (trace s1 ++ [EvStore this new;
                                  EvStore (fresh (dom (ptrs s))) old]
                              ++ decr_events old)).
Proof.
  pose proof (fresh_ptr_None s) as Hfresh.
  set (tmp := fresh (dom (ptrs s))) in *. intros [w Hw] Hc Htmp Hthis Hold.
  assert (this <> tmp) by congruence.
  unfold assign_by_copy_and_swap. rewrite bind_alloca. fold tmp.
  unfold bind at 1. rewrite Hc.
  rewrite (bind_skip (_ ;; _)), bind_bind.
  erewrite swap_run by done. cbv beta.
  erewrite dtor_run; [| simpl; apply lookup_insert_eq | done].
  unfold ret. state_solver.
  rewrite delete_insert_eq. by rewrite delete_insert_ne.
Qed.

Lemma construct_run (m : M unit) s s1 :
  bind m ret s = Done (tt, s1) -> m s = Done (tt, s1).
Proof. by rewrite <- bind_skip. Qed.

Lemma assign_raw_run this ptr old s :
  ptrs s !! this = Some old -> valid_target s old -> valid_target s ptr ->
  CheckedPtr.assign_raw this ptr s
  = Done (tt, State (released old (acquired ptr (counts s)))
                    (<[this := ptr]> (ptrs s)) (refs s)
                    (trace s ++ [EvStore (fresh (dom (ptrs s))) ptr]
                       ++ incr_events ptr
                       ++ [EvStore this ptr; EvStore (fresh (dom (ptrs s))) old]
                       ++ decr_events old)).
Proof.
  intros Hthis Hold Hptr.
  pose proof (fresh_ptr_None s) as Hfresh.
  change (CheckedPtr.assign_raw this ptr s)
    with (assign_by_copy_and_swap (fun x => CheckedPtr.ctor_raw x ptr) this s).
  erewrite (copy_and_swap_run _ this s _ ptr old);
    [ | by eauto
      | apply construct_run; rewrite ctor_raw_run by done; reflexivity | ..].
  - state_solver.
    rewrite delete_insert_id by done. done.
  - simpl. apply lookup_insert_eq.
  - simpl. rewrite lookup_insert_ne; [done | congruence].
  - by apply valid_target_acquired.
Qed.

Lemma assign_copy_run this other old v s :
  ptrs s !! this = Some old -> ptrs s !! other = Some v ->
  valid_target s old -> valid_target s v ->
  CheckedPtr.assign_copy this other s
  = Done (tt, State (released old (acquired v (counts s)))
                    (<[this := v]> (ptrs s)) (refs s)
                    (trace s ++ [EvStore (fresh (dom (ptrs s))) v]
                       ++ incr_events v
                       ++ [EvStore this v; EvStore (fresh (dom (ptrs s))) old]
                       ++ decr_events old)).
Proof.
  intros Hthis Hother Hold Hv.
  pose proof (fresh_ptr_None s) as Hfresh.
  change (CheckedPtr.assign_copy this other s)
    with (assign_by_copy_and_swap (fun x => CheckedPtr.ctor_copy x other) this s).
  erewrite (copy_and_swap_run _ this s _ v old);
    [ | by eauto
      | apply construct_run; erewrite ctor_copy_run by done; reflexivity | ..].
  - state_solver.
    rewrite delete_insert_id by done. done.
  - simpl. apply lookup_insert_eq.
  - simpl. rewrite lookup_insert_ne; [done | congruence].
  - by apply valid_target_acquired.
Qed.

Lemma assign_move_run this other old v s :
  this <> other ->
  ptrs s !! this = Some old -> ptrs s !! other = Some v ->
  valid_target s old ->
  CheckedPtr.assign_move this other s
  = Done (tt, State (released old (counts s))
                    (<[this := v]> (<[other := nullptr]> (ptrs s))) (refs s)
                    (trace s ++ [EvStore other nullptr;
                                 EvStore (fresh (dom (ptrs s))) v;
                                 EvStore this v;
                                 EvStore (fresh (dom (ptrs s))) old]
                       ++ decr_events old)).
Proof.
  intros Hne Hthis Hother Hold.
  pose proof (fresh_ptr_None s) as Hfresh.
  change (CheckedPtr.assign_move this other s)
    with (assign_by_copy_and_swap (fun x => CheckedPtr.ctor_move x other) this s).
  erewrite (copy_and_swap_run _ this s _ v old);
    [ | by eauto
      | apply construct_run; erewrite ctor_move_run by done; reflexivity | ..].
  - state_solver.
    rewrite delete_insert_eq. rewrite delete_id; [done |].
    rewrite lookup_insert_ne; [done | congruence].
  - simpl. apply lookup_insert_eq.
  - simpl. rewrite lookup_insert_ne by congruence.
    by rewrite lookup_insert_ne.
  - done.
Qed.

Lemma assign_move_self_run this v s :
  ptrs s !! this = Some v ->
  CheckedPtr.assign_move this this s
  = Done (tt, State (counts s) (ptrs s) (refs s)
                    (trace s ++ [EvStore this nullptr;
                                 EvStore (fresh (dom (ptrs s))) v;
                                 EvStore this v;
                                 EvStore (fresh (dom (ptrs s))) nullptr])).
Proof.
  intros Hthis.
  pose proof (fresh_ptr_None s) as Hfresh.
  change (CheckedPtr.assign_move this this s)
    with (assign_by_copy_and_swap (fun x => CheckedPtr.ctor_move x this) this s).
  erewrite (copy_and_swap_run _ this s _ v nullptr);
    [ | by eauto
      | apply construct_run; erewrite ctor_move_run by done; reflexivity | ..].
  - state_solver.
    rewrite delete_insert_eq. rewrite delete_id.
    + rewrite insert_insert_eq. by apply insert_id.
    + rewrite lookup_insert_ne; [done | congruence].
  - simpl. apply lookup_insert_eq.
  - simpl. rewrite lookup_insert_ne by congruence. apply lookup_insert_eq.
  - by left.
Qed.

Lemma assign_nullptr_run this old s :
  ptrs s !! this = Some old -> valid_target s old ->
  CheckedPtr.assign_nullptr this s
  = Done (tt, State (released old (counts s)) (<[this := nullptr]> (ptrs s))
                    (refs s)
                    (trace s ++ decr_events old ++ [EvStore this nullptr])).
Proof.
  intros Hthis Hold. unfold CheckedPtr.assign_nullptr.
  unfold CheckedPtr.unregisterCheckedPtrIfNecessary. rewrite bind_ret.
  erewrite derefIfNotNull_run by done.
  rewrite (bind_skip (store _ _)). erewrite bind_store by (simpl; done).
  unfold ret. state_solver.
Qed.

Lemma holders_pos p x (m : gmap positive Z) :
  m !! x = Some p -> 1 <= Z.of_nat (holders p m).
Proof.
  intros Hx. pose proof (holders_delete p x p m Hx) as Hd.
  unfold ind in Hd. rewrite decide_True in Hd by done. lia.
Qed.

Lemma holders_two p x y (m : gmap positive Z) :
  x <> y -> m !! x = Some p -> m !! y = Some p -> 2 <= Z.of_nat (holders p m).
Proof.
  intros Hne Hx Hy. pose proof (holders_delete p x p m Hx) as Hd.
  unfold ind in Hd. rewrite decide_True in Hd by done.
  assert (1 <= Z.of_nat (holders p (delete x m))).
  { apply (holders_pos p y). by rewrite lookup_delete_ne. }
  lia.
Qed.

Lemma counted_one_holder s x p c :
  counted s -> p <> nullptr -> counts s !! p = Some c ->
  ptrs s !! x = Some p -> 1 <= c.
Proof.
  intros Hc Hp Hl Hx. rewrite (Hc p c Hl Hp). unfold live_targeting.
  pose proof (holders_pos p x _ Hx). lia.
Qed.

Lemma counted_two_holders s x y p c :
  counted s -> p <> nullptr -> counts s !! p = Some c ->
  x <> y -> ptrs s !! x = Some p -> ptrs s !! y = Some p -> 2 <= c.
Proof.
  intros Hc Hp Hl Hne Hx Hy. rewrite (Hc p c Hl Hp). unfold live_targeting.
  pose proof (holders_two p x y _ Hne Hx Hy). lia.
Qed.

Lemma ASSERT_true `{BuildConfig} : ASSERT true = ret tt.
Proof. unfold ASSERT. by destruct ASSERT_ENABLED. Qed.

Lemma ASSERT_false `{BuildConfig} s :
  ASSERT false s = if ASSERT_ENABLED then AssertionFailure else Done (tt, s).
Proof. unfold ASSERT. by destruct ASSERT_ENABLED. Qed.

Lemma releaseNonNull_run `{BuildConfig} x r p s :
  ptrs s !! x = Some p -> p <> nullptr ->
  CheckedPtr.releaseNonNull x r s
  = Done (tt, State (counts s) (<[x := nullptr]> (ptrs s))
                    (<[r := p]> (refs s)) (trace s ++ [EvStore x nullptr])).
Proof.
  intros Hx Hp. unfold CheckedPtr.releaseNonNull, std_exchange.
  erewrite bind_load by done.
  rewrite (to_bool_nonnull p), ASSERT_true, bind_ret by done.
  rewrite bind_bind. erewrite bind_load by done. cbv beta.
  rewrite bind_bind. erewrite bind_store by done. cbv beta.
  rewrite bind_ret. unfold RawPtrTraits.unwrap, deref.
  rewrite (to_bool_nonnull p), bind_ret by done.
  reflexivity.
Qed.

Lemma releaseNonNull_null `{BuildConfig} x r s :
  ptrs s !! x = Some nullptr ->
  CheckedPtr.releaseNonNull x r s
  = if ASSERT_ENABLED then AssertionFailure else UndefinedBehavior.
Proof.
  intros Hx. unfold CheckedPtr.releaseNonNull, std_exchange.
  erewrite bind_load by done. rewrite to_bool_nullptr.
  unfold bind at 1. rewrite ASSERT_false.
  destruct ASSERT_ENABLED; [done |].
  rewrite bind_bind. erewrite bind_load by done. cbv beta.
  rewrite bind_bind. erewrite bind_store by done. cbv beta.
  rewrite bind_ret. reflexivity.
Qed.

Lemma ctor_from_ref_move_run `{BuildConfig} y r p s :
  refs s !! r = Some p -> p <> nullptr ->
  CheckedPtr.ctor_from_ref_move y r s
  = Done (tt, State (counts s) (<[y := p]> (ptrs s))
                    (<[r := nullptr]> (refs s)) (trace s ++ [EvStore y p])).
Proof.
  intros Hr Hp. unfold CheckedPtr.ctor_from_ref_move, CheckedPtr.get.
  unfold bind at 1. unfold CheckedRef.releasePtr. rewrite Hr.
  rewrite bind_init. rewrite bind_bind.
  erewrite bind_load by (simpl; apply lookup_insert_eq). cbv beta.
  rewrite bind_ret. unfold RawPtrTraits.unwrap.
  rewrite (to_bool_nonnull p), ASSERT_true by done. reflexivity.
Qed.

Lemma released_lookup_ne old v (m : gmap Z Z) :
  v <> old -> released old m !! v = m !! v.
Proof.
  intros Hne. unfold released. destruct (to_bool old); [| done].
  destruct (m !! old); [| done]. by rewrite lookup_insert_ne.
Qed.

Lemma released_lookup_eq old c (m : gmap Z Z) :
  old <> nullptr -> m !! old = Some c -> released old m !! old = Some (c - 1).
Proof.
  intros Hnn Hl. unfold released. rewrite to_bool_nonnull by done.
  rewrite Hl. apply lookup_insert_eq.
Qed.

Lemma released_acquired v (m : gmap Z Z) : released v (acquired v m) = m.
Proof.
  unfold released, acquired. destruct (to_bool v); [| done].
  destruct (m !! v) as [c|] eqn:Hv.
  - rewrite lookup_insert_eq, insert_insert_eq.
    replace (c + 1 - 1) with c by lia. by apply insert_id.
  - by rewrite Hv.
Qed.

Lemma isHashTableDeletedValue_spec v :
  RawPtrTraits.isHashTableDeletedValue v = true
  <-> v = RawPtrTraits.hashTableDeletedValue.
Proof. unfold RawPtrTraits.isHashTableDeletedValue. apply Z.eqb_eq. Qed.

Lemma customDeleteBucket_run `{BuildConfig} value p s :
  ptrs s !! value = Some p -> p <> RawPtrTraits.hashTableDeletedValue ->
  valid_target s p ->
  HashTraits.customDeleteBucket value s
  = Done (tt, State (released p (counts s))
                    (<[value := RawPtrTraits.hashTableDeletedValue]> (ptrs s))
                    (refs s)
                    (trace s
                       ++ [EvStore value nullptr;
                           EvStore (fresh (dom (ptrs s))) p;
                           EvStore value RawPtrTraits.hashTableDeletedValue]
                       ++ decr_events p)).
Proof.
  intros Hv Hp Hvalid.
  pose proof (fresh_ptr_None s) as Hfresh.
  assert (fresh (dom (ptrs s)) <> value) as Hne by congruence.
  unfold HashTraits.customDeleteBucket, SimpleClassHashTraits.isDeletedValue,
    SimpleClassHashTraits.constructDeletedValue,
    CheckedPtr.isHashTableDeletedValue, CheckedPtr.ctor_deleted.
  rewrite bind_bind. erewrite bind_load by done. cbv beta. rewrite bind_ret.
  replace (RawPtrTraits.isHashTableDeletedValue p) with false.
  2:{ symmetry. apply not_true_is_false. by rewrite isHashTableDeletedValue_spec. }
  simpl negb. rewrite ASSERT_true, bind_ret, bind_alloca.
  erewrite ctor_move_run by done. rewrite bind_init.
  rewrite (bind_skip (CheckedPtr.dtor _)).
  erewrite dtor_run; [| simpl | done].
  2:{ rewrite lookup_insert_ne by done. apply lookup_insert_eq. }
  unfold ret. state_solver.
  rewrite delete_insert_ne by done. rewrite delete_insert_eq.
  rewrite delete_insert_ne by done. rewrite insert_insert_eq.
  by rewrite delete_id.
Qed.

Lemma customDeleteBucket_deleted `{BuildConfig} value s :
  ptrs s !! value = Some RawPtrTraits.hashTableDeletedValue ->
  ASSERT_ENABLED = true ->
  HashTraits.customDeleteBucket value s = AssertionFailure.
Proof.
  intros Hv Hdbg.
  unfold HashTraits.customDeleteBucket, SimpleClassHashTraits.isDeletedValue,
    CheckedPtr.isHashTableDeletedValue.
  rewrite bind_bind. erewrite bind_load by done. cbv beta. rewrite bind_ret.
  unfold bind, ASSERT. rewrite Hdbg. reflexivity.
Qed.

(** ** Well-formed programs run to their end *)

Lemma nonnull_at_Some m x :
  nonnull_at m x -> exists v, m !! x = Some v /\ v <> nullptr.
Proof. unfold nonnull_at. destruct (m !! x); [eauto | done]. Qed.

Lemma bind_declare {B} x s (k : unit -> M B) :
  ptrs s !! x = None -> bind (declare x) k s = k tt s.
Proof. intros Hx. unfold bind, declare. by rewrite Hx. Qed.

Lemma bind_declare_ref {B} r s (k : unit -> M B) :
  refs s !! r = None -> bind (declare_ref r) k s = k tt s.
Proof. intros Hr. unfold bind, declare_ref. by rewrite Hr. Qed.

Lemma exec_progress `{BuildConfig} (o : op) (s : state) :
  sound s -> wf_op s o -> exists s', exec o s = Done (tt, s').
Proof.
  intros [Hp Hr] Hwf. destruct o; simpl in Hwf; simpl.
  - rewrite bind_declare by done. eexists. reflexivity.
  - rewrite bind_declare by done. eexists. reflexivity.
  - destruct Hwf as [Hx Hv]. rewrite bind_declare by done.
    rewrite bind_skip, ctor_raw_run by done. eexists. reflexivity.
  - destruct Hwf as [Hx [v Hy]]. rewrite bind_declare by done.
    rewrite bind_skip. erewrite ctor_copy_run by eauto. eexists. reflexivity.
  - destruct Hwf as [Hx [v Hy]]. rewrite bind_declare by done.
    change (CheckedPtr.ctor_copy_converting x y s)
      with (CheckedPtr.ctor_copy x y s).
    rewrite bind_skip. erewrite ctor_copy_run by eauto. eexists. reflexivity.
  - destruct Hwf as [Hx [v Hy]]. rewrite bind_declare by done.
    rewrite bind_skip. erewrite ctor_move_run by eauto. eexists. reflexivity.
  - destruct Hwf as [Hx [v Hy]]. rewrite bind_declare by done.
    change (CheckedPtr.ctor_move_converting x y s)
      with (CheckedPtr.ctor_move x y s).
    rewrite bind_skip. erewrite ctor_move_run by eauto. eexists. reflexivity.
  - destruct Hwf as [Hx [v Hy]]. rewrite bind_declare by done.
    unfold CheckedPtr.ctor_from_ref, bind at 1, CheckedRef.load. rewrite Hy.
    rewrite bind_skip, ctor_raw_run by eauto. eexists. reflexivity.
  - destruct Hwf as [Hx (v & Hy & Hv)%nonnull_at_Some].
    rewrite bind_declare by done.
    erewrite ctor_from_ref_move_run by done. eexists. reflexivity.
  - destruct Hwf as [v Hx].
    erewrite assign_nullptr_run by eauto. eexists. reflexivity.
  - destruct Hwf as [[v Hx] Hv].
    erewrite assign_raw_run by eauto. eexists. reflexivity.
  - destruct Hwf as [[v Hx] [w Hy]].
    erewrite assign_copy_run by eauto. eexists. reflexivity.
  - destruct Hwf as [[v Hx] [w Hy]].
    change (CheckedPtr.assign_copy_converting x y s)
      with (CheckedPtr.assign_copy x y s).
    erewrite assign_copy_run by eauto. eexists. reflexivity.
  - destruct Hwf as [[v Hx] [w Hy]]. destruct (decide (x = y)) as [-> |].
    + erewrite assign_move_self_run by eauto. eexists. reflexivity.
    + erewrite assign_move_run by eauto. eexists. reflexivity.
  - destruct Hwf as [[v Hx] [w Hy]].
    change (CheckedPtr.assign_move_converting x y s)
      with (CheckedPtr.assign_move x y s).
    destruct (decide (x = y)) as [-> |].
    + erewrite assign_move_self_run by eauto. eexists. reflexivity.
    + erewrite assign_move_run by eauto. eexists. reflexivity.
  - destruct Hwf as [Hx (v & Hy & Hv)%nonnull_at_Some].
    rewrite bind_declare_ref by done.
    erewrite releaseNonNull_run by done. eexists. reflexivity.
  - destruct Hwf as [v Hx]. rewrite bind_skip.
    erewrite dtor_run by eauto. eexists. reflexivity.
  - destruct Hwf as (Hx & Hp' & [c Hc]). rewrite bind_declare_ref by done.
    unfold deref. rewrite to_bool_nonnull, bind_ret by done.
    unfold CheckedRef.ctor.
    erewrite bind_increment by (simpl; done). eexists. reflexivity.
  - destruct Hwf as [v Hx]. unfold CheckedRef.dtor. rewrite Hx.
    destruct (to_bool v) eqn:Hb.
    + apply to_bool_true in Hb.
      destruct (Hr r v Hx) as [-> | [c Hc]]; [done |].
      erewrite bind_decrement by (simpl; done). eexists. reflexivity.
    + rewrite bind_ret. eexists. reflexivity.
Qed.

Lemma valid_target_dom s s' v :
  dom (counts s') = dom (counts s) -> valid_target s v -> valid_target s' v.
Proof.
  intros Hd [-> | Hv]; [by left | right].
  apply elem_of_dom. rewrite Hd. by apply elem_of_dom.
Qed.

Lemma sound_intro s s' :
  dom (counts s') = dom (counts s) ->
  (forall x v, ptrs s' !! x = Some v -> valid_target s v) ->
  (forall r v, refs s' !! r = Some v -> valid_target s v) ->
  sound s'.
Proof.
  intros Hd Hp Hr. split; intros x v Hx; eapply valid_target_dom; eauto.
Qed.

Lemma exec_sound `{BuildConfig} (o : op) (s s' : state) (u : unit) :
  sound s -> wf_op s o -> exec o s = Done (u, s') -> sound s'.
Proof.
  intros [Hp Hr] Hwf Hrun.
  apply (sound_intro s); [by eapply exec_pointees | |];
    destruct o; simpl in Hrun, Hwf; minv Hrun; simpl in *;
    intros k w Hk; split_lookups;
    repeat match goal with
           | H : _ /\ _ |- _ => destruct H
           end;
    try done; try (by left); try (by eapply Hp); try (by eapply Hr);
    try (right; by eauto).
Qed.

Lemma run_completes `{BuildConfig} (prog : list op) (s : state) :
  sound s -> wf_prog prog s -> exists s', run prog s = Done (tt, s').
Proof.
  revert s. induction prog as [| o prog IH]; intros s Hs Hwf; simpl.
  - eexists. reflexivity.
  - destruct Hwf as [Ho Hrest].
    destruct (exec_progress o s Hs Ho) as [s1 Hrun].
    rewrite Hrun in Hrest. unfold bind. rewrite Hrun.
    apply IH; [by eapply exec_sound | done].
Qed.

(** ** C1: the outstanding count is the number of live holders *)

(** C1. For every sequence of constructions (empty, from null, from a raw
    pointer, from a checked pointer, from a checked reference), copies, moves,
    assignments, resets, releases and destructions, started in a state in
    which every count is right: when the sequence has run, the outstanding
    count of every live pointee is the number of live checked pointers and
    checked references that target it - every non-null checked pointer
    accounts for exactly one increment on its pointee.  And a sequence whose
    statements are well-formed does run to its end. *)
Theorem count_equals_live_targets `{BuildConfig}
    (prog : list op) (s : state) (p : addr) :
  counted s -> p <> nullptr -> is_Some (counts s !! p) ->
  (forall s', run prog s = Done (tt, s') ->
     counts s' !! p = Some (Z.of_nat (live_targeting p s')))
  /\ (sound s -> wf_prog prog s -> exists s', run prog s = Done (tt, s')).
Proof.
  intros Hc Hp Hlive. split.
  - intros s' Hrun.
    destruct (run_counted prog s s' tt Hc Hrun) as [Hc' Hdom].
    apply elem_of_dom in Hlive. rewrite <- Hdom in Hlive.
    apply elem_of_dom in Hlive as [c Hl].
    rewrite Hl. f_equal. by apply (Hc' p c).
  - apply run_completes.
Qed.

Lemma count_equals_live_targets_witness :
  run (H := debug_build) scenario (fresh_pointee 16) = Done (tt, scenario_state)
  /\ counts scenario_state !! 16 = Some 2
  /\ live_targeting 16 scenario_state = 2%nat.
Proof.
  destruct (count_equals_live_targets (H := debug_build)
              scenario (fresh_pointee 16) 16) as [Hcount Hruns].
  - apply (bool_decide_unpack (counted _)). vm_compute. exact I.
  - discriminate.
  - exists 0. vm_compute. reflexivity.
  - destruct Hruns as [s' Hrun].
    + apply (bool_decide_unpack (sound _)). vm_compute. exact I.
    + apply (bool_decide_unpack (wf_prog _ _)). vm_compute. exact I.
    + assert (s' = scenario_state) as ->.
      { assert (Done (tt, s') = Done (tt, scenario_state)) as [= ->];
          [rewrite <- Hrun; vm_compute; reflexivity | reflexivity]. }
      split; [exact Hrun |]. split; [| vm_compute; reflexivity].
      apply (Hcount scenario_state Hrun).
Defined.

(** ** C2: assignment *)

(** C2 (amended). Every assignment that takes a value - from a raw pointer,
    from another checked pointer by copy or by move, of the same or of a
    converting type - is a copy-and-swap: it constructs a temporary
    replacement first, then exchanges it with the slot, then releases the old
    value through the destruction of the temporary.  So the increment of the
    new pointee (a copy or a raw pointer; a move makes none) comes before the
    decrement of the old pointee, and a pointee that is both the old and the
    new value keeps a count above zero after every event of the run.
    Assignment from null builds no temporary: it decrements the old pointee,
    if any, and then stores null. *)
Theorem assignment_copy_and_swap (s : state) (this : positive) (old : Z) :
  ptrs s !! this = Some old -> valid_target s old ->
  let tmp := fresh (dom (ptrs s)) in
  (* the shape of the five assignments that take a value *)
  (forall ptr other,
     CheckedPtr.assign_raw this ptr
       = assign_by_copy_and_swap (fun x => CheckedPtr.ctor_raw x ptr) this
     /\ CheckedPtr.assign_copy this other
       = assign_by_copy_and_swap (fun x => CheckedPtr.ctor_copy x other) this
     /\ CheckedPtr.assign_copy_converting this other
       = assign_by_copy_and_swap
           (fun x => CheckedPtr.ctor_copy_converting x other) this
     /\ CheckedPtr.assign_move this other
       = assign_by_copy_and_swap (fun x => CheckedPtr.ctor_move x other) this
     /\ CheckedPtr.assign_move_converting this other
       = assign_by_copy_and_swap
           (fun x => CheckedPtr.ctor_move_converting x other) this)
  (* from a raw pointer: increment of the new, exchange, decrement of the old *)
  /\ (forall ptr, valid_target s ptr ->
        exists s', CheckedPtr.assign_raw this ptr s = Done (tt, s')
          /\ ptrs s' = <[this := ptr]> (ptrs s)
          /\ trace s' = trace s ++ [EvStore tmp ptr] ++ incr_events ptr
                          ++ [EvStore this ptr; EvStore tmp old]
                          ++ decr_events old)
  (* from another checked pointer, by copy *)
  /\ (forall other v, ptrs s !! other = Some v -> valid_target s v ->
        exists s', CheckedPtr.assign_copy this other s = Done (tt, s')
          /\ CheckedPtr.assign_copy_converting this other s = Done (tt, s')
          /\ ptrs s' = <[this := v]> (ptrs s)
          /\ trace s' = trace s ++ [EvStore tmp v] ++ incr_events v
                          ++ [EvStore this v; EvStore tmp old]
                          ++ decr_events old)
  (* from another checked pointer, by move *)
  /\ (forall other v, this <> other -> ptrs s !! other = Some v ->
        exists s', CheckedPtr.assign_move this other s = Done (tt, s')
          /\ CheckedPtr.assign_move_converting this other s = Done (tt, s')
          /\ ptrs s' = <[this := v]> (<[other := nullptr]> (ptrs s))
          /\ trace s' = trace s ++ [EvStore other nullptr; EvStore tmp v;
                                    EvStore this v; EvStore tmp old]
                          ++ decr_events old)
  (* a pointee that is both the old and the new value keeps a count above
     zero all along *)
  /\ (forall c, counted s -> old <> nullptr -> counts s !! old = Some c ->
        (forall s' evs,
           CheckedPtr.assign_raw this old s = Done (tt, s') ->
           trace s' = trace s ++ evs -> never_zero old c evs)
        /\ (forall other s' evs,
              ptrs s !! other = Some old ->
              CheckedPtr.assign_copy this other s = Done (tt, s') ->
              trace s' = trace s ++ evs -> never_zero old c evs)
        /\ (forall other s' evs,
              this <> other -> ptrs s !! other = Some old ->
              CheckedPtr.assign_move this other s = Done (tt, s') ->
              trace s' = trace s ++ evs -> never_zero old c evs))
  (* from null: no temporary; the old pointee is decremented, then the slot
     is overwritten *)
  /\ (exists s', CheckedPtr.assign_nullptr this s = Done (tt, s')
        /\ ptrs s' = <[this := nullptr]> (ptrs s)
        /\ trace s' = trace s ++ decr_events old ++ [EvStore this nullptr]).
Proof.
  intros Hthis Hold tmp. repeat apply conj.
  - intros ptr other. repeat split.
  - intros ptr Hptr. eexists.
    split; [by apply assign_raw_run |]. split; reflexivity.
  - intros other v Hother Hv. eexists.
    split; [by eapply assign_copy_run |]. split; [by eapply assign_copy_run |].
    split; reflexivity.
  - intros other v Hne Hother. eexists.
    split; [by eapply assign_move_run |]. split; [by eapply assign_move_run |].
    split; reflexivity.
  - intros c Hc Hnn Hl.
    pose proof (counted_one_holder s this old c Hc Hnn Hl Hthis) as Hone.
    repeat apply conj.
    + intros s' evs Hrun Ht.
      rewrite (assign_raw_run this old old s) in Hrun by done.
      injection Hrun as <-. simpl in Ht. apply app_inv_head in Ht as <-.
      unfold never_zero, incr_events, decr_events.
      rewrite (to_bool_nonnull old) by done. simpl.
      rewrite !decide_True by done. repeat constructor; lia.
    + intros other s' evs Hother Hrun Ht.
      rewrite (assign_copy_run this other old old s) in Hrun by done.
      injection Hrun as <-. simpl in Ht. apply app_inv_head in Ht as <-.
      unfold never_zero, incr_events, decr_events.
      rewrite (to_bool_nonnull old) by done. simpl.
      rewrite !decide_True by done. repeat constructor; lia.
    + intros other s' evs Hne Hother Hrun Ht.
      pose proof (counted_two_holders s this other old c
                    Hc Hnn Hl Hne Hthis Hother).
      rewrite (assign_move_run this other old old s) in Hrun by done.
      injection Hrun as <-. simpl in Ht. apply app_inv_head in Ht as <-.
      unfold never_zero, decr_events.
      rewrite (to_bool_nonnull old) by done. simpl.
      rewrite !decide_True by done. repeat constructor; lia.
  - eexists. split; [by apply assign_nullptr_run |]. split; reflexivity.
Qed.

Lemma assignment_copy_and_swap_witness :
  exists s', CheckedPtr.assign_raw 1 16 one_holder = Done (tt, s')
    /\ trace s' = [EvStore 2 16; EvIncrement 16; EvStore 1 16; EvStore 2 16;
                   EvDecrement 16].
Proof.
  destruct (assignment_copy_and_swap one_holder 1 16) as (_ & Hraw & _).
  - reflexivity.
  - right. exists 1. reflexivity.
  - destruct (Hraw 16) as (s' & Hrun & _ & Ht).
    + right. exists 1. reflexivity.
    + exists s'. split; [exact Hrun |]. rewrite Ht. vm_compute. reflexivity.
Defined.

(** C2 as stated fails for the assignment from null: run on a pointer that
    holds the pointee at 16, [operator=(std::nullptr_t)] decrements first and
    stores null afterwards, and no temporary is ever written, whereas a
    copy-and-swap exchanges first and decrements last. *)
Lemma assign_nullptr_is_not_copy_and_swap :
  CheckedPtr.assign_nullptr 1 one_holder
    <> assign_by_copy_and_swap CheckedPtr.ctor_nullptr 1 one_holder
  /\ trace <$> final (CheckedPtr.assign_nullptr 1 one_holder)
     = Some [EvDecrement 16; EvStore 1 nullptr]
  /\ trace <$> final (assign_by_copy_and_swap CheckedPtr.ctor_nullptr 1 one_holder)
     = Some [EvStore 2 nullptr; EvStore 1 nullptr; EvStore 2 16; EvDecrement 16].
Proof.
  repeat apply conj.
  - vm_compute. discriminate.
  - vm_compute. reflexivity.
  - vm_compute. reflexivity.
Qed.

(** ** C3: move *)

(** C3 as stated fails for move assignment.  With two checked pointers on the
    pointee at 16 (count 2), [a = WTFMove(b)] leaves the count at 1: the old
    reference of the destination is released.  And a pointer move-assigned to
    itself is not left null. *)
Lemma move_assignment_changes_count :
  (exists s', CheckedPtr.assign_move 1 2 two_holders = Done (tt, s')
     /\ counts two_holders !! 16 = Some 2 /\ counts s' !! 16 = Some 1)
  /\ (exists s', CheckedPtr.assign_move 1 1 one_holder = Done (tt, s')
        /\ ptrs s' !! 1%positive = Some 16).
Proof.
  split; eexists; (split; [vm_compute; reflexivity |]); vm_compute; done.
Qed.

(** C3 (amended). Move construction never changes a count, leaves the source
    null and gives its content to the destination.  Move assignment between
    two distinct checked pointers gives the content of the source to the
    destination, leaves the source null, makes no increment, and releases the
    old value of the destination: the count of the transferred pointee is
    unchanged unless the destination already targeted it, in which case it
    drops by one.  Move assignment of a checked pointer to itself leaves the
    counts and the slot as they were. *)
Theorem move_transfers (s : state) (this other : positive) (v : Z) :
  ptrs s !! other = Some v ->
  (* move construction *)
  (this <> other ->
     exists s', CheckedPtr.ctor_move this other s = Done (tt, s')
       /\ CheckedPtr.ctor_move_converting this other s = Done (tt, s')
       /\ counts s' = counts s
       /\ ptrs s' = <[this := v]> (<[other := nullptr]> (ptrs s))
       /\ trace s' = trace s ++ [EvStore other nullptr; EvStore this v])
  (* move assignment between two objects *)
  /\ (forall old, this <> other -> ptrs s !! this = Some old ->
        valid_target s old ->
        exists s', CheckedPtr.assign_move this other s = Done (tt, s')
          /\ CheckedPtr.assign_move_converting this other s = Done (tt, s')
          /\ ptrs s' = <[this := v]> (<[other := nullptr]> (ptrs s))
          /\ counts s' = released old (counts s)
          /\ (v <> old -> counts s' !! v = counts s !! v)
          /\ (forall c, v = old -> old <> nullptr ->
                counts s !! v = Some c -> counts s' !! v = Some (c - 1))
          /\ Forall (fun e => forall p, e <> EvIncrement p)
                    (drop (length (trace s)) (trace s')))
  (* move assignment of an object to itself *)
  /\ (this = other ->
        exists s', CheckedPtr.assign_move this other s = Done (tt, s')
          /\ counts s' = counts s /\ ptrs s' = ptrs s).
Proof.
  intros Hother. repeat apply conj.
  - intros Hne. eexists.
    split; [apply construct_run; erewrite ctor_move_run by done; reflexivity |].
    split; [apply construct_run; erewrite ctor_move_run by done; reflexivity |].
    repeat split.
  - intros old Hne Hthis Hold. eexists.
    split; [by eapply assign_move_run |].
    split; [by eapply assign_move_run |].
    simpl. repeat split.
    + intros Hv. by apply released_lookup_ne.
    + intros c -> Hnn Hc. by apply released_lookup_eq.
    + rewrite drop_app_length. unfold decr_events.
      destruct (to_bool old); repeat constructor; discriminate.
  - intros ->. eexists. split; [by eapply assign_move_self_run |]. done.
Qed.

Lemma move_transfers_witness :
  exists s', CheckedPtr.assign_move 1 2 two_holders = Done (tt, s')
    /\ ptrs s' = {[ 1%positive := 16; 2%positive := nullptr ]}
    /\ counts s' = {[ 16 := 1 ]}.
Proof.
  destruct (move_transfers two_holders 1 2 16) as (_ & Hassign & _).
  - reflexivity.
  - destruct (Hassign 16) as (s' & Hrun & _ & Hp & Hc & _).
    + discriminate.
    + reflexivity.
    + right. exists 2. reflexivity.
    + exists s'. split; [exact Hrun |].
      rewrite Hp, Hc. split; vm_compute; reflexivity.
Defined.

(** ** C4: release to a checked reference and back *)

(** C4. Releasing a non-null checked pointer into a checked reference with
    [releaseNonNull] and then consuming that reference to construct a new
    checked pointer leaves every count unchanged, with no increment or
    decrement on the way, and the new checked pointer holds the pointer the
    original held; the original and the reference are left null. *)
Theorem release_adopt_round_trip `{BuildConfig}
    (s : state) (x r y : positive) (p : Z) :
  ptrs s !! x = Some p -> p <> nullptr -> x <> y ->
  exists s',
    (CheckedPtr.releaseNonNull x r ;; CheckedPtr.ctor_from_ref_move y r) s
      = Done (tt, s')
    /\ counts s' = counts s
    /\ ptrs s' !! y = Some p
    /\ ptrs s' !! x = Some nullptr
    /\ refs s' !! r = Some nullptr
    /\ trace s' = trace s ++ [EvStore x nullptr; EvStore y p].
Proof.
  intros Hx Hp Hne. eexists. split.
  - unfold bind. rewrite (releaseNonNull_run x r p) by done.
    rewrite (ctor_from_ref_move_run y r p); [reflexivity | | done].
    simpl. apply lookup_insert_eq.
  - simpl. repeat split.
    + apply lookup_insert_eq.
    + rewrite lookup_insert_ne by done. apply lookup_insert_eq.
    + rewrite insert_insert_eq. apply lookup_insert_eq.
    + by rewrite <- app_assoc.
Qed.

Lemma release_adopt_round_trip_witness :
  exists s',
    (CheckedPtr.releaseNonNull (H := debug_build) 1 1 ;;
     CheckedPtr.ctor_from_ref_move (H := debug_build) 2 1) one_holder
      = Done (tt, s')
    /\ counts s' = counts one_holder
    /\ ptrs s' !! 2%positive = Some 16.
Proof.
  destruct (release_adopt_round_trip (H := debug_build) one_holder 1 1 2 16)
    as (s' & Hrun & Hc & Hy & _).
  - reflexivity.
  - discriminate.
  - discriminate.
  - exists s'. repeat split; assumption.
Defined.

(** ** C5: self-assignment *)

(** C5. Assigning a checked pointer to itself, null or not, is a no-op: the
    counts are the same after the assignment and the slot holds the same
    value. *)
Theorem self_assignment_is_noop (s : state) (x : positive) (v : Z) :
  ptrs s !! x = Some v -> valid_target s v ->
  exists s', CheckedPtr.assign_copy x x s = Done (tt, s')
    /\ counts s' = counts s /\ ptrs s' = ptrs s /\ refs s' = refs s.
Proof.
  intros Hx Hv. eexists. split; [by eapply assign_copy_run |].
  simpl. repeat split.
  - apply released_acquired.
  - by apply insert_id.
Qed.

Lemma self_assignment_is_noop_witness :
  exists s', CheckedPtr.assign_copy 1 1 one_holder = Done (tt, s')
    /\ counts s' = counts one_holder /\ ptrs s' = ptrs one_holder.
Proof.
  destruct (self_assignment_is_noop one_holder 1 16) as (s' & Hrun & Hc & Hp & _).
  - reflexivity.
  - right. exists 1. reflexivity.
  - exists s'. repeat split; assumption.
Defined.

(** ** C6: releaseNonNull *)

(** C6 as stated fails where assertions are compiled out: called on a null
    slot in such a build, [releaseNonNull] does not fail by assertion -
    [ASSERT(m_ptr)] expands to nothing and the call goes on to bind a
    reference to a null pointer, which is undefined.  The same call in a
    build with assertions does fail its assertion. *)
Lemma releaseNonNull_without_assertions :
  CheckedPtr.releaseNonNull (H := release_build) 1 1 null_slot
    = UndefinedBehavior
  /\ CheckedPtr.releaseNonNull (H := release_build) 1 1 null_slot
     <> AssertionFailure
  /\ CheckedPtr.releaseNonNull (H := debug_build) 1 1 null_slot
     = AssertionFailure.
Proof.
  split_and!.
  - vm_compute. reflexivity.
  - vm_compute. discriminate.
  - vm_compute. reflexivity.
Qed.

(** C6 (amended). [releaseNonNull] has the precondition that the slot is
    non-null.  Called on a null slot it fails [ASSERT(m_ptr)] where
    assertions are compiled in (debug builds); where they are compiled out no
    assertion fires and the call is undefined.  On a non-null slot it
    detaches the pointer with no increment and no decrement - the counts are
    unchanged and the only event is the store of null - hands it to the
    returned checked reference and leaves the slot null. *)
Theorem releaseNonNull_contract `{BuildConfig}
    (s : state) (x r : positive) (v : Z) :
  ptrs s !! x = Some v ->
  (v = nullptr ->
     CheckedPtr.releaseNonNull x r s
     = if ASSERT_ENABLED then AssertionFailure else UndefinedBehavior)
  /\ (v <> nullptr ->
        exists s', CheckedPtr.releaseNonNull x r s = Done (tt, s')
          /\ counts s' = counts s
          /\ trace s' = trace s ++ [EvStore x nullptr]
          /\ ptrs s' = <[x := nullptr]> (ptrs s)
          /\ refs s' = <[r := v]> (refs s)).
Proof.
  intros Hx. split.
  - intros ->. by apply releaseNonNull_null.
  - intros Hv. eexists. split; [by apply releaseNonNull_run |]. done.
Qed.

Lemma releaseNonNull_contract_witness :
  CheckedPtr.releaseNonNull (H := debug_build) 1 1 null_slot = AssertionFailure
  /\ CheckedPtr.releaseNonNull (H := release_build) 1 1 null_slot
     = UndefinedBehavior
  /\ exists s', CheckedPtr.releaseNonNull (H := debug_build) 1 1 one_holder
                = Done (tt, s')
       /\ counts s' = counts one_holder
       /\ refs s' !! 1%positive = Some 16.
Proof.
  repeat apply conj.
  - destruct (releaseNonNull_contract (H := debug_build) null_slot 1 1 nullptr)
      as [Hnull _]; [reflexivity |].
    exact (Hnull eq_refl).
  - destruct (releaseNonNull_contract (H := release_build) null_slot 1 1 nullptr)
      as [Hnull _]; [reflexivity |].
    exact (Hnull eq_refl).
  - destruct (releaseNonNull_contract (H := debug_build) one_holder 1 1 16)
      as [_ Hok]; [reflexivity |].
    destruct Hok as (s' & Hrun & Hc & _ & _ & Hr); [discriminate |].
    exists s'. repeat split; [exact Hrun | exact Hc |].
    rewrite Hr. reflexivity.
Defined.

(** ** C7: hash-table values *)

(** C7 as stated fails on the order inside the bucket deletion: run on a
    bucket that holds the pointee at 16, [customDeleteBucket] overwrites the
    slot with the deleted value first and decrements the count afterwards,
    when [valueToBeDestroyed] goes out of scope. *)
Lemma bucket_deletion_decrements_last :
  exists s',
    HashTraits.customDeleteBucket (H := debug_build) 1 one_holder = Done (tt, s')
    /\ before (EvDecrement 16)
              (EvStore 1 RawPtrTraits.hashTableDeletedValue) (trace s') = false
    /\ before (EvStore 1 RawPtrTraits.hashTableDeletedValue)
              (EvDecrement 16) (trace s') = true.
Proof.
  eexists. split; [vm_compute; reflexivity |].
  split; vm_compute; reflexivity.
Qed.

(** C7 (amended). Constructing a checked pointer from the deleted value gives
    a slot that holds the reserved encoding and makes no increment.  The slot
    is distinguishable from null and from any valid pointer: the encoding is
    not null, it is the address of no live pointee (no pointee living at the
    reserved all-ones address), [isHashTableDeletedValue] answers true on the
    slot and false on every checked pointer that is null or holds a valid
    pointer, and [operator==] between the slot and such a pointer is false.
    The empty value is null.  The bucket deletion moves the reference out of
    the slot, overwrites the slot with the deleted value, and then releases
    the reference that was moved out: exactly one decrement of the pointee
    when the bucket was non-null, after the overwrite. *)
Theorem deleted_value_and_bucket_deletion `{BuildConfig}
    (s : state) (value : positive) (p : Z) :
  ptrs s !! value = Some p ->
  (* construction from the deleted value: the reserved encoding, no count
     touched *)
  (forall this,
     exists s', CheckedPtr.ctor_deleted this s = Done (tt, s')
       /\ ptrs s' !! this = Some RawPtrTraits.hashTableDeletedValue
       /\ counts s' = counts s
       /\ trace s' = trace s
                       ++ [EvStore this RawPtrTraits.hashTableDeletedValue]
       /\ CheckedPtr.isHashTableDeletedValue this s' = Done (true, s'))
  (* the encoding is not null *)
  /\ RawPtrTraits.hashTableDeletedValue <> nullptr
  (* no pointee living at the reserved address, the slot is told apart from
     null and from every valid pointer *)
  /\ (counts s !! RawPtrTraits.hashTableDeletedValue = None ->
        (forall q, is_Some (counts s !! q) ->
           RawPtrTraits.hashTableDeletedValue <> q)
        /\ (forall v, valid_target s v ->
              RawPtrTraits.isHashTableDeletedValue v = false)
        /\ (forall this x v,
              x <> this -> ptrs s !! x = Some v -> valid_target s v ->
              exists s', CheckedPtr.ctor_deleted this s = Done (tt, s')
                /\ CheckedPtr.isHashTableDeletedValue this s' = Done (true, s')
                /\ CheckedPtr.isHashTableDeletedValue x s' = Done (false, s')
                /\ CheckedPtr.operator_eq this x s' = Done (false, s')
                /\ CheckedPtr.operator_eq_raw this v s' = Done (false, s')))
  (* the empty value is null, and is not the deleted value *)
  /\ HashTraits.emptyValue = nullptr
  /\ RawPtrTraits.isHashTableDeletedValue HashTraits.emptyValue = false
  (* bucket deletion: move out, overwrite, then one decrement *)
  /\ (valid_target s p -> p <> RawPtrTraits.hashTableDeletedValue ->
        exists s', HashTraits.customDeleteBucket value s = Done (tt, s')
          /\ ptrs s' = <[value := RawPtrTraits.hashTableDeletedValue]> (ptrs s)
          /\ counts s' = released p (counts s)
          /\ (forall c, p <> nullptr -> counts s !! p = Some c ->
                counts s' !! p = Some (c - 1))
          /\ trace s' = trace s
               ++ [EvStore value nullptr;
                   EvStore (fresh (dom (ptrs s))) p;
                   EvStore value RawPtrTraits.hashTableDeletedValue]
               ++ decr_events p)
  /\ (p = RawPtrTraits.hashTableDeletedValue -> ASSERT_ENABLED = true ->
        HashTraits.customDeleteBucket value s = AssertionFailure).
Proof.
  intros Hv.
  assert (Hself : forall this,
             CheckedPtr.isHashTableDeletedValue this
               (log (EvStore this RawPtrTraits.hashTableDeletedValue)
                  (set_ptrs <[this := RawPtrTraits.hashTableDeletedValue]> s))
             = Done (true, log (EvStore this RawPtrTraits.hashTableDeletedValue)
                  (set_ptrs <[this := RawPtrTraits.hashTableDeletedValue]> s))).
  { intros this. unfold CheckedPtr.isHashTableDeletedValue.
    erewrite bind_load by (simpl; apply lookup_insert_eq).
    reflexivity. }
  assert (Hvalid : counts s !! RawPtrTraits.hashTableDeletedValue = None ->
            forall v, valid_target s v ->
                      v <> RawPtrTraits.hashTableDeletedValue).
  { intros HD v [-> | [c Hc]]; [discriminate |]. intros ->. congruence. }
  split_and!.
  - intros this. eexists. split; [reflexivity |]. simpl.
    split_and!; [apply lookup_insert_eq | done | done | apply Hself].
  - discriminate.
  - intros HD. split_and!.
    + intros q Hq Heq. apply (Hvalid HD q); [by right | done].
    + intros v Hval. apply not_true_is_false.
      rewrite isHashTableDeletedValue_spec. by apply Hvalid.
    + intros this x v Hne Hx Hval. eexists. split; [reflexivity |].
      split; [apply Hself |].
      pose proof (Hvalid HD v Hval) as Hnd.
      unfold CheckedPtr.isHashTableDeletedValue, CheckedPtr.operator_eq,
        CheckedPtr.operator_eq_raw.
      split_and!.
      * erewrite bind_load by (simpl; by rewrite lookup_insert_ne).
        unfold ret. do 2 f_equal. apply not_true_is_false.
        by rewrite isHashTableDeletedValue_spec.
      * erewrite bind_load by (simpl; apply lookup_insert_eq).
        erewrite bind_load by (simpl; by rewrite lookup_insert_ne).
        unfold ret. do 2 f_equal. apply Z.eqb_neq. congruence.
      * erewrite bind_load by (simpl; apply lookup_insert_eq).
        unfold ret. do 2 f_equal. apply Z.eqb_neq. congruence.
  - reflexivity.
  - reflexivity.
  - intros Hval Hp. eexists. split; [by apply customDeleteBucket_run |].
    simpl. repeat split.
    intros c Hnn Hc. by apply released_lookup_eq.
  - intros -> Hdbg. by apply customDeleteBucket_deleted.
Qed.

Lemma deleted_value_and_bucket_deletion_witness :
  (exists s',
     HashTraits.customDeleteBucket (H := debug_build) 1 one_holder
       = Done (tt, s')
     /\ ptrs s' = {[ 1%positive := RawPtrTraits.hashTableDeletedValue ]}
     /\ counts s' !! 16 = Some 0)
  /\ RawPtrTraits.hashTableDeletedValue <> 16
  /\ (exists s', CheckedPtr.ctor_deleted 2 one_holder = Done (tt, s')
        /\ CheckedPtr.isHashTableDeletedValue 2 s' = Done (true, s')
        /\ CheckedPtr.isHashTableDeletedValue 1 s' = Done (false, s')
        /\ CheckedPtr.operator_eq 2 1 s' = Done (false, s')).
Proof.
  destruct (deleted_value_and_bucket_deletion (H := debug_build)
              one_holder 1 16) as (_ & _ & Hapart & _ & _ & Hdel & _).
  - reflexivity.
  - destruct Hapart as (Hlive & _ & Hslot); [reflexivity |].
    split_and!.
    + destruct Hdel as (s' & Hrun & Hp & _ & Hc & _).
      * right. exists 1. reflexivity.
      * discriminate.
      * exists s'. split; [exact Hrun |]. split.
        -- rewrite Hp. vm_compute. reflexivity.
        -- apply (Hc 1); [discriminate | reflexivity].
    + apply Hlive. exists 1. reflexivity.
    + destruct (Hslot 2%positive 1%positive 16)
        as (s' & Hrun & Hd & Hn & Heq & _).
      * discriminate.
      * reflexivity.
      * right. exists 1. reflexivity.
      * exists s'. split_and!; assumption.
Defined.

(** ** C8: dereference and member access *)

(** C8 as stated fails for [operator->]: it has no assertion.  On a null
    slot, with assertions compiled in, [operator->] returns null where
    [operator*] fails its assertion. *)
Lemma operator_arrow_does_not_assert :
  CheckedPtr.operator_arrow 1 null_slot = Done (nullptr, null_slot)
  /\ CheckedPtr.operator_star (H := debug_build) 1 null_slot = AssertionFailure.
Proof. split; vm_compute; reflexivity. Qed.

(** C8 (amended). On a non-null slot [operator*] and [operator->] return the
    pointee (its address) and change neither the slot nor any count.  On a
    null slot [operator*] fails [ASSERT(m_ptr)] in a build with assertions
    and is undefined without them, while [operator->] makes no check: it
    returns the null pointer, and the state is unchanged. *)
Theorem dereference_contract `{BuildConfig} (s : state) (x : positive) (v : Z) :
  ptrs s !! x = Some v ->
  (v <> nullptr ->
     CheckedPtr.operator_star x s = Done (v, s)
     /\ CheckedPtr.operator_arrow x s = Done (v, s))
  /\ (v = nullptr ->
        CheckedPtr.operator_star x s
        = (if ASSERT_ENABLED then AssertionFailure else UndefinedBehavior)
        /\ CheckedPtr.operator_arrow x s = Done (nullptr, s)).
Proof.
  intros Hx.
  assert (Harrow : CheckedPtr.operator_arrow x s = Done (v, s)).
  { unfold CheckedPtr.operator_arrow, CheckedPtr.get.
    erewrite bind_load by done. reflexivity. }
  split.
  - intros Hv. split; [| done].
    unfold CheckedPtr.operator_star, CheckedPtr.get.
    erewrite bind_load by done.
    rewrite (to_bool_nonnull v), ASSERT_true, bind_ret by done.
    rewrite bind_bind. erewrite bind_load by done. cbv beta.
    rewrite bind_ret. unfold deref, RawPtrTraits.unwrap.
    by rewrite (to_bool_nonnull v).
  - intros ->. split; [| done].
    unfold CheckedPtr.operator_star, CheckedPtr.get.
    erewrite bind_load by done. rewrite to_bool_nullptr.
    unfold bind at 1. rewrite ASSERT_false.
    destruct ASSERT_ENABLED; [done |].
    rewrite bind_bind. erewrite bind_load by done. reflexivity.
Qed.

Lemma dereference_contract_witness :
  CheckedPtr.operator_star (H := debug_build) 1 one_holder = Done (16, one_holder)
  /\ CheckedPtr.operator_arrow 1 one_holder = Done (16, one_holder).
Proof.
  destruct (dereference_contract (H := debug_build) one_holder 1 16)
    as [Hok _]; [reflexivity |].
  apply Hok. discriminate.
Defined.

(** ** C9: boolean conversion *)

(** C9. Both boolean conversions of a checked pointer, [explicit operator
    bool] and [operator UnspecifiedBoolType], yield true (the non-null member
    pointer) if and only if the slot is non-null.  The implicit one returns a
    value of a two-valued member-pointer type, not an integer. *)
Theorem boolean_conversion (s : state) (x : positive) (v : Z) :
  ptrs s !! x = Some v ->
  exists (b : bool) (u : CheckedPtr.UnspecifiedBoolType),
    CheckedPtr.operator_bool x s = Done (b, s)
    /\ CheckedPtr.operator_UnspecifiedBoolType x s = Done (u, s)
    /\ (b = true <-> v <> nullptr)
    /\ (u = CheckedPtr.unspecifiedBoolTypeInstance <-> v <> nullptr)
    /\ (u = CheckedPtr.UnspecifiedBoolType_nullptr <-> v = nullptr)
    /\ (forall u' : CheckedPtr.UnspecifiedBoolType,
          u' = CheckedPtr.unspecifiedBoolTypeInstance
          \/ u' = CheckedPtr.UnspecifiedBoolType_nullptr).
Proof.
  intros Hx. exists (to_bool v).
  exists (if to_bool v then CheckedPtr.unspecifiedBoolTypeInstance
          else CheckedPtr.UnspecifiedBoolType_nullptr).
  unfold CheckedPtr.operator_bool, CheckedPtr.operator_UnspecifiedBoolType.
  erewrite !bind_load by done. unfold ret, RawPtrTraits.unwrap.
  repeat split; try apply to_bool_true;
    try (intros []; by eauto);
    destruct (to_bool v) eqn:Hb; try done;
    try (apply to_bool_true in Hb); try (apply to_bool_false in Hb); done.
Qed.

Lemma boolean_conversion_witness :
  exists b u,
    CheckedPtr.operator_bool 1 one_holder = Done (b, one_holder)
    /\ CheckedPtr.operator_UnspecifiedBoolType 1 one_holder
       = Done (u, one_holder)
    /\ b = true /\ u = CheckedPtr.unspecifiedBoolTypeInstance.
Proof.
  destruct (boolean_conversion one_holder 1 16)
    as (b & u & Hb & Hu & Hbt & Hut & _ & _); [reflexivity |].
  exists b, u. repeat split; [exact Hb | exact Hu | |].
  - apply Hbt. discriminate.
  - apply Hut. discriminate.
Defined.

(** ** C10: observers *)

(** C10. Every observer of a checked pointer - [get], the boolean
    conversions, [isHashTableDeletedValue], and equality with a raw pointer
    or with another checked pointer - returns its answer in the state it was
    called in: the slot, the counts and the other objects are unchanged.
    Equality compares the stored addresses. *)
Theorem observers_are_pure (s : state) (x : positive) (v : Z) :
  ptrs s !! x = Some v ->
  CheckedPtr.get x s = Done (v, s)
  /\ CheckedPtr.operator_bool x s = Done (to_bool v, s)
  /\ (exists u, CheckedPtr.operator_UnspecifiedBoolType x s = Done (u, s))
  /\ CheckedPtr.isHashTableDeletedValue x s
     = Done (RawPtrTraits.isHashTableDeletedValue v, s)
  /\ (forall other : Z,
        CheckedPtr.operator_eq_raw x other s = Done (v =? other, s))
  /\ (forall (other : positive) (w : Z), ptrs s !! other = Some w ->
        CheckedPtr.operator_eq x other s = Done (v =? w, s)).
Proof.
  intros Hx.
  unfold CheckedPtr.get, CheckedPtr.operator_bool,
    CheckedPtr.operator_UnspecifiedBoolType,
    CheckedPtr.isHashTableDeletedValue, CheckedPtr.operator_eq_raw,
    CheckedPtr.operator_eq.
  repeat split.
  - by erewrite bind_load.
  - by erewrite bind_load.
  - eexists. by erewrite bind_load.
  - by erewrite bind_load.
  - intros other. by erewrite bind_load.
  - intros other w Hother. erewrite bind_load by done.
    by erewrite bind_load.
Qed.

Lemma observers_are_pure_witness :
  CheckedPtr.get 1 two_holders = Done (16, two_holders)
  /\ CheckedPtr.operator_eq 1 2 two_holders = Done (true, two_holders).
Proof.
  destruct (observers_are_pure two_holders 1 16)
    as (Hget & _ & _ & _ & _ & Heq); [reflexivity |].
  split; [exact Hget |]. apply (Heq 2%positive 16). reflexivity.
Defined.

(** * Further properties of CheckedPtr.h *)

(** Properties X1 to X21: what the constructors, the destructor, the
    assignments, the comparison and the hash-table hooks do beyond C1 to
    C10. *)

(** ** Helper lemmas *)

Lemma acquired_lookup_ne v q (m : gmap Z Z) :
  q <> v -> acquired v m !! q = m !! q.
Proof.
  intros Hne. unfold acquired. destruct (to_bool v); [| done].
  destruct (m !! v); [| done]. by rewrite lookup_insert_ne.
Qed.

Lemma acquired_lookup_eq v c (m : gmap Z Z) :
  v <> nullptr -> m !! v = Some c -> acquired v m !! v = Some (c + 1).
Proof.
  intros Hnn Hl. unfold acquired. rewrite to_bool_nonnull by done.
  rewrite Hl. apply lookup_insert_eq.
Qed.

Lemma acquired_nullptr (m : gmap Z Z) : acquired nullptr m = m.
Proof. reflexivity. Qed.

Lemma released_nullptr (m : gmap Z Z) : released nullptr m = m.
Proof. reflexivity. Qed.

Lemma released_is_Some q v (m : gmap Z Z) :
  is_Some (m !! v) -> is_Some (released q m !! v).
Proof.
  intros Hv. unfold released. destruct (to_bool q); [| done].
  destruct (m !! q) as [cq|] eqn:Hq; [| done].
  destruct (decide (q = v)) as [-> |].
  - rewrite lookup_insert_eq. eauto.
  - by rewrite lookup_insert_ne.
Qed.

Lemma acquired_is_Some q v (m : gmap Z Z) :
  is_Some (m !! v) -> is_Some (acquired q m !! v).
Proof.
  intros Hv. unfold acquired. destruct (to_bool q); [| done].
  destruct (m !! q) as [cq|] eqn:Hq; [| done].
  destruct (decide (q = v)) as [-> |].
  - rewrite lookup_insert_eq. eauto.
  - by rewrite lookup_insert_ne.
Qed.

(** ** A checked pointer that lives and dies leaves no mark *)

(** X1. [{ CheckedPtr x { p }; }]: constructing a checked pointer from a raw
    pointer (null, or to a live pointee) and destroying it leaves the counts,
    the other checked pointers and the checked references as they were. *)
Theorem scoped_pointer_round_trip (s : state) (x : positive) (p : Z) :
  ptrs s !! x = None -> valid_target s p ->
  exists s', (CheckedPtr.ctor_raw x p ;; CheckedPtr.dtor x) s = Done (tt, s')
    /\ counts s' = counts s /\ ptrs s' = ptrs s /\ refs s' = refs s.
Proof.
  intros Hx Hp. eexists. split.
  - rewrite ctor_raw_run by done. rewrite bind_skip.
    erewrite dtor_run;
      [reflexivity | simpl; apply lookup_insert_eq
       | by apply valid_target_acquired].
  - simpl. repeat split.
    + apply released_acquired.
    + by apply delete_insert_id.
Qed.

Lemma scoped_pointer_round_trip_witness :
  exists s', (CheckedPtr.ctor_raw 2 16 ;; CheckedPtr.dtor 2) one_holder
             = Done (tt, s')
    /\ counts s' = counts one_holder /\ ptrs s' = ptrs one_holder.
Proof.
  destruct (scoped_pointer_round_trip one_holder 2 16)
    as (s' & Hrun & Hc & Hp & _).
  - reflexivity.
  - right. exists 1. reflexivity.
  - exists s'. repeat split; assumption.
Defined.

(** X2. The copy constructor charges the pointee of the source exactly once
    more, changes no other count, and leaves the source as it was; the
    destruction of the copy gives the increment back. *)
Theorem copy_charges_once (s : state) (x y : positive) (v : Z) :
  ptrs s !! x = None -> ptrs s !! y = Some v -> valid_target s v ->
  exists s1 s2,
    CheckedPtr.ctor_copy x y s = Done (tt, s1)
    /\ ptrs s1 = <[x := v]> (ptrs s)
    /\ ptrs s1 !! y = Some v
    /\ refs s1 = refs s
    /\ (forall c, v <> nullptr -> counts s !! v = Some c ->
          counts s1 !! v = Some (c + 1))
    /\ (forall q, q <> v -> counts s1 !! q = counts s !! q)
    /\ (v = nullptr -> counts s1 = counts s)
    /\ CheckedPtr.dtor x s1 = Done (tt, s2)
    /\ counts s2 = counts s /\ ptrs s2 = ptrs s /\ refs s2 = refs s.
Proof.
  intros Hx Hy Hv.
  assert (x <> y) as Hne by congruence.
  exists (State (acquired v (counts s)) (<[x := v]> (ptrs s)) (refs s)
                (trace s ++ EvStore x v :: incr_events v)).
  exists (State (released v (acquired v (counts s)))
                (delete x (<[x := v]> (ptrs s))) (refs s)
                ((trace s ++ EvStore x v :: incr_events v) ++ decr_events v)).
  split.
  { apply construct_run. erewrite ctor_copy_run by done. reflexivity. }
  simpl. repeat apply conj; try done.
  - by rewrite lookup_insert_ne.
  - intros c Hnn Hc. by apply acquired_lookup_eq.
  - intros q Hq. by apply acquired_lookup_ne.
  - by intros ->.
  - apply construct_run.
    erewrite dtor_run;
      [reflexivity | simpl; apply lookup_insert_eq
       | by apply valid_target_acquired].
  - apply released_acquired.
  - by apply delete_insert_id.
Qed.

Lemma copy_charges_once_witness :
  exists s1, CheckedPtr.ctor_copy 2 1 one_holder = Done (tt, s1)
    /\ counts s1 !! 16 = Some 2.
Proof.
  destruct (copy_charges_once one_holder 2 1 16)
    as (s1 & s2 & Hrun & _ & _ & _ & Hc & _).
  - reflexivity.
  - reflexivity.
  - right. exists 1. reflexivity.
  - exists s1. split; [exact Hrun |]. apply (Hc 1); [discriminate | reflexivity].
Defined.

(** ** Checked references: copying one, consuming one *)

Lemma ctor_from_ref_run {B} x r v s (k : unit -> M B) :
  refs s !! r = Some v -> valid_target s v ->
  bind (CheckedPtr.ctor_from_ref x r) k s
  = k tt (State (acquired v (counts s)) (<[x := v]> (ptrs s)) (refs s)
                (trace s ++ EvStore x v :: incr_events v)).
Proof.
  intros Hr Hv. unfold CheckedPtr.ctor_from_ref. rewrite bind_bind.
  unfold bind at 1, CheckedRef.load. rewrite Hr.
  by rewrite ctor_raw_run.
Qed.

(** X3. A checked pointer built from a checked reference that is kept
    ([CheckedRef&]) charges the pointee once more and leaves the reference
    intact; built from a reference that is given up ([CheckedRef&&]) it takes
    over the increment of the reference: no count changes and the reference
    is left null.  Either way the new pointer holds the pointee of the
    reference. *)
Theorem from_reference_copy_or_adopt `{BuildConfig}
    (s : state) (x r : positive) (v c : Z) :
  refs s !! r = Some v -> v <> nullptr -> counts s !! v = Some c ->
  (exists s1, CheckedPtr.ctor_from_ref x r s = Done (tt, s1)
     /\ ptrs s1 = <[x := v]> (ptrs s)
     /\ refs s1 = refs s
     /\ counts s1 = <[v := c + 1]> (counts s))
  /\ (exists s2, CheckedPtr.ctor_from_ref_move x r s = Done (tt, s2)
        /\ ptrs s2 = <[x := v]> (ptrs s)
        /\ refs s2 = <[r := nullptr]> (refs s)
        /\ counts s2 = counts s).
Proof.
  intros Hr Hv Hc. split.
  - eexists. split.
    + apply construct_run. erewrite ctor_from_ref_run; [reflexivity | done |].
      right. eauto.
    + simpl. repeat split. unfold acquired.
      by rewrite to_bool_nonnull, Hc.
  - eexists. split; [by apply ctor_from_ref_move_run |]. done.
Qed.

Lemma from_reference_copy_or_adopt_witness :
  exists s1, CheckedPtr.ctor_from_ref 1
               1 (State {[ 16 := 1 ]} ∅ {[ 1%positive := 16 ]} [])
             = Done (tt, s1)
    /\ counts s1 = {[ 16 := 2 ]}.
Proof.
  destruct (from_reference_copy_or_adopt (H := debug_build)
              (State {[ 16 := 1 ]} ∅ {[ 1%positive := 16 ]} []) 1 1 16 1)
    as [(s1 & Hrun & _ & _ & Hc) _].
  - reflexivity.
  - discriminate.
  - reflexivity.
  - exists s1. split; [exact Hrun |]. rewrite Hc. vm_compute. reflexivity.
Defined.

(** X4. Consuming a checked reference that was already released (its slot is
    null): the constructor's [ASSERT(get())] fails where assertions are
    compiled in; without them the result is a null checked pointer, and no
    count is touched. *)
Theorem adopt_released_reference `{BuildConfig} (s : state) (x r : positive) :
  refs s !! r = Some nullptr ->
  CheckedPtr.ctor_from_ref_move x r s
  = if ASSERT_ENABLED then AssertionFailure
    else Done (tt, State (counts s) (<[x := nullptr]> (ptrs s))
                         (<[r := nullptr]> (refs s))
                         (trace s ++ [EvStore x nullptr])).
Proof.
  intros Hr. unfold CheckedPtr.ctor_from_ref_move, CheckedPtr.get.
  unfold bind at 1. unfold CheckedRef.releasePtr. rewrite Hr.
  rewrite bind_init. rewrite bind_bind.
  erewrite bind_load by (simpl; apply lookup_insert_eq). cbv beta.
  rewrite bind_ret. unfold RawPtrTraits.unwrap.
  rewrite to_bool_nullptr, ASSERT_false. by destruct ASSERT_ENABLED.
Qed.

Lemma adopt_released_reference_witness :
  CheckedPtr.ctor_from_ref_move (H := debug_build) 1 1
    (State ∅ ∅ {[ 1%positive := nullptr ]} []) = AssertionFailure.
Proof.
  apply (adopt_released_reference (H := debug_build)
           (State ∅ ∅ {[ 1%positive := nullptr ]} []) 1 1).
  reflexivity.
Defined.

(** ** releaseNonNull, used twice, and followed by the destructor *)

(** X5. A checked pointer can be released only once: after [releaseNonNull]
    the slot is null, so a second [releaseNonNull] fails its assertion (or is
    undefined where assertions are compiled out). *)
Theorem release_twice_fails `{BuildConfig}
    (s : state) (x r1 r2 : positive) (p : Z) :
  ptrs s !! x = Some p -> p <> nullptr ->
  (CheckedPtr.releaseNonNull x r1 ;; CheckedPtr.releaseNonNull x r2) s
  = if ASSERT_ENABLED then AssertionFailure else UndefinedBehavior.
Proof.
  intros Hx Hp. unfold bind. rewrite (releaseNonNull_run x r1 p) by done.
  apply releaseNonNull_null. simpl. apply lookup_insert_eq.
Qed.

Lemma release_twice_fails_witness :
  (CheckedPtr.releaseNonNull (H := debug_build) 1 1 ;;
   CheckedPtr.releaseNonNull (H := debug_build) 1 2) one_holder
  = AssertionFailure.
Proof.
  apply (release_twice_fails (H := debug_build) one_holder 1 1 2 16).
  - reflexivity.
  - discriminate.
Defined.

(** X6. The increment of a released checked pointer lives on in the checked
    reference: destroying the released pointer makes no decrement, and the
    counts are those from before the release. *)
Theorem release_then_destroy `{BuildConfig}
    (s : state) (x r : positive) (p : Z) :
  ptrs s !! x = Some p -> p <> nullptr ->
  exists s', (CheckedPtr.releaseNonNull x r ;; CheckedPtr.dtor x) s
             = Done (tt, s')
    /\ counts s' = counts s
    /\ ptrs s' = delete x (ptrs s)
    /\ refs s' = <[r := p]> (refs s)
    /\ trace s' = trace s ++ [EvStore x nullptr].
Proof.
  intros Hx Hp. eexists. split.
  - unfold bind at 1. rewrite (releaseNonNull_run x r p) by done.
    apply construct_run.
    erewrite dtor_run;
      [reflexivity | simpl; apply lookup_insert_eq | by left].
  - simpl. repeat split.
    + apply delete_insert_eq.
    + by rewrite app_nil_r.
Qed.

Lemma release_then_destroy_witness :
  exists s', (CheckedPtr.releaseNonNull (H := debug_build) 1 1 ;;
              CheckedPtr.dtor 1) one_holder = Done (tt, s')
    /\ counts s' = counts one_holder.
Proof.
  destruct (release_then_destroy (H := debug_build) one_holder 1 1 16)
    as (s' & Hrun & Hc & _).
  - reflexivity.
  - discriminate.
  - exists s'. split; assumption.
Defined.

(** ** Equality *)

(** X7. Equality of checked pointers is the equality of the stored
    addresses: it is reflexive and symmetric, it holds exactly when the two
    slots hold the same address, and comparing with the null raw pointer is
    the negation of the boolean conversion. *)
Theorem equality_laws (s : state) (x y : positive) (v w : Z) :
  ptrs s !! x = Some v -> ptrs s !! y = Some w ->
  CheckedPtr.operator_eq x y s = CheckedPtr.operator_eq y x s
  /\ CheckedPtr.operator_eq x x s = Done (true, s)
  /\ (CheckedPtr.operator_eq x y s = Done (true, s) <-> v = w)
  /\ (CheckedPtr.operator_eq x y s = Done (false, s) <-> v <> w)
  /\ (forall q, CheckedPtr.operator_eq_raw x q s = Done (true, s) <-> v = q)
  /\ (forall b, CheckedPtr.operator_bool x s = Done (b, s) ->
        CheckedPtr.operator_eq_raw x nullptr s = Done (negb b, s)).
Proof.
  intros Hx Hy.
  unfold CheckedPtr.operator_eq, CheckedPtr.operator_eq_raw,
    CheckedPtr.operator_bool.
  repeat (erewrite bind_load by done). unfold ret, RawPtrTraits.unwrap.
  split_and!.
  - by rewrite Z.eqb_sym.
  - by rewrite Z.eqb_refl.
  - split.
    + intros [= Heq]. by apply Z.eqb_eq.
    + intros ->. by rewrite Z.eqb_refl.
  - split.
    + intros [= Heq]. by apply Z.eqb_neq.
    + intros Hne. apply Z.eqb_neq in Hne. by rewrite Hne.
  - intros q. try erewrite bind_load by done. split.
    + intros [= Heq]. by apply Z.eqb_eq.
    + intros ->. by rewrite Z.eqb_refl.
  - intros b [= <-]. try erewrite bind_load by done.
    unfold to_bool. by rewrite negb_involutive.
Qed.

Lemma equality_laws_witness :
  CheckedPtr.operator_eq 1 2 two_holders = Done (true, two_holders).
Proof.
  destruct (equality_laws two_holders 1 2 16 16) as (_ & _ & Heq & _).
  - reflexivity.
  - reflexivity.
  - by apply Heq.
Defined.

(** X8. A copy compares equal to its source.  After a move from a non-null
    source the two compare unequal: the destination equals the raw pointer
    that was moved and the source converts to false. *)
Theorem equality_after_copy_and_move (s : state) (x y : positive) (v : Z) :
  ptrs s !! x = None -> ptrs s !! y = Some v ->
  (valid_target s v ->
     exists s1, (CheckedPtr.ctor_copy x y ;; CheckedPtr.operator_eq x y) s
                = Done (true, s1))
  /\ (v <> nullptr ->
        exists s2,
          CheckedPtr.ctor_move x y s = Done (tt, s2)
          /\ CheckedPtr.operator_eq x y s2 = Done (false, s2)
          /\ CheckedPtr.operator_eq_raw x v s2 = Done (true, s2)
          /\ CheckedPtr.operator_bool y s2 = Done (false, s2)
          /\ CheckedPtr.operator_bool x s2 = Done (true, s2)).
Proof.
  intros Hx Hy. assert (x <> y) as Hne by congruence. split.
  - intros Hv. eexists. erewrite ctor_copy_run by done.
    unfold CheckedPtr.operator_eq.
    erewrite bind_load by (simpl; apply lookup_insert_eq).
    erewrite bind_load by (simpl; by rewrite lookup_insert_ne).
    unfold ret. by rewrite Z.eqb_refl.
  - intros Hv. eexists. split.
    { apply construct_run. erewrite ctor_move_run by done. reflexivity. }
    unfold CheckedPtr.operator_eq, CheckedPtr.operator_eq_raw,
      CheckedPtr.operator_bool, RawPtrTraits.unwrap.
    repeat apply conj.
    + erewrite bind_load by (simpl; apply lookup_insert_eq).
      erewrite bind_load
        by (simpl; rewrite lookup_insert_ne by done; apply lookup_insert_eq).
      unfold ret. apply Z.eqb_neq in Hv. by rewrite Hv.
    + erewrite bind_load by (simpl; apply lookup_insert_eq).
      unfold ret. by rewrite Z.eqb_refl.
    + erewrite bind_load
        by (simpl; rewrite lookup_insert_ne by done; apply lookup_insert_eq).
      reflexivity.
    + erewrite bind_load by (simpl; apply lookup_insert_eq).
      unfold ret. by rewrite to_bool_nonnull.
Qed.

Lemma equality_after_copy_and_move_witness :
  exists s2, CheckedPtr.ctor_move 2 1 one_holder = Done (tt, s2)
    /\ CheckedPtr.operator_eq 2 1 s2 = Done (false, s2).
Proof.
  destruct (equality_after_copy_and_move one_holder 2 1 16) as [_ Hmove].
  - reflexivity.
  - reflexivity.
  - destruct Hmove as (s2 & Hrun & Hne & _); [discriminate |].
    exists s2. split; assumption.
Defined.

(** ** Hash-table buckets *)

Lemma deleted_value_nonnull : RawPtrTraits.hashTableDeletedValue <> nullptr.
Proof. discriminate. Qed.

Lemma observe_slot x v s :
  ptrs s !! x = Some v ->
  CheckedPtr.isHashTableDeletedValue x s
    = Done (RawPtrTraits.isHashTableDeletedValue v, s)
  /\ HashTraits.peek x s = Done (v, s)
  /\ CheckedPtr.operator_bool x s = Done (to_bool v, s).
Proof.
  intros Hx.
  unfold CheckedPtr.isHashTableDeletedValue, HashTraits.peek, CheckedPtr.get,
    CheckedPtr.operator_bool.
  by repeat (erewrite bind_load by done).
Qed.

(** X9. The three kinds of bucket are told apart.  A checked pointer built
    from the empty value is not deleted, peeks as the empty value and
    converts to false.  One built from the deleted value is deleted, and it
    converts to true: it is not null.  One built from a pointer to a live
    pointee is not deleted and peeks as that pointer - provided no pointee
    lives at the all-ones address. *)
Theorem bucket_kinds (s : state) (x : positive) (p : Z) :
  p <> nullptr -> is_Some (counts s !! p) ->
  counts s !! RawPtrTraits.hashTableDeletedValue = None ->
  (exists s', CheckedPtr.ctor_raw x HashTraits.emptyValue s = Done (tt, s')
     /\ CheckedPtr.isHashTableDeletedValue x s' = Done (false, s')
     /\ HashTraits.peek x s' = Done (HashTraits.emptyValue, s')
     /\ CheckedPtr.operator_bool x s' = Done (false, s')
     /\ counts s' = counts s)
  /\ (exists s' q, CheckedPtr.ctor_deleted x s = Done (tt, s')
        /\ CheckedPtr.isHashTableDeletedValue x s' = Done (true, s')
        /\ CheckedPtr.operator_bool x s' = Done (true, s')
        /\ HashTraits.peek x s' = Done (q, s')
        /\ q <> HashTraits.emptyValue /\ q <> p
        /\ counts s' = counts s)
  /\ (exists s', CheckedPtr.ctor_raw x p s = Done (tt, s')
        /\ CheckedPtr.isHashTableDeletedValue x s' = Done (false, s')
        /\ HashTraits.peek x s' = Done (p, s')
        /\ CheckedPtr.operator_bool x s' = Done (true, s')).
Proof.
  intros Hp [c Hc] HD. split_and!.
  - eexists. split.
    { apply construct_run. rewrite ctor_raw_run by (by left). reflexivity. }
    edestruct (observe_slot x nullptr) as (Hd & Hpeek & Hb);
      [| rewrite Hd, Hpeek, Hb; done].
    simpl. apply lookup_insert_eq.
  - eexists. exists RawPtrTraits.hashTableDeletedValue. split; [reflexivity |].
    edestruct (observe_slot x RawPtrTraits.hashTableDeletedValue)
      as (Hd & Hpeek & Hb);
      [| rewrite Hd, Hpeek, Hb; split_and!; try done].
    + simpl. apply lookup_insert_eq.
    + intros <-. congruence.
  - eexists. split.
    { apply construct_run. rewrite ctor_raw_run by (right; eauto).
      reflexivity. }
    edestruct (observe_slot x p) as (Hd & Hpeek & Hb);
      [| rewrite Hd, Hpeek, Hb; split_and!; try done].
    + simpl. apply lookup_insert_eq.
    + do 2 f_equal. apply not_true_is_false.
      rewrite isHashTableDeletedValue_spec. intros ->. congruence.
    + by rewrite to_bool_nonnull.
Qed.

Lemma bucket_kinds_witness :
  exists s', CheckedPtr.ctor_deleted 2 one_holder = Done (tt, s')
    /\ CheckedPtr.isHashTableDeletedValue 2 s' = Done (true, s')
    /\ CheckedPtr.operator_bool 2 s' = Done (true, s').
Proof.
  destruct (bucket_kinds one_holder 2 16)
    as (_ & (s' & q & Hrun & Hd & Hb & _) & _).
  - discriminate.
  - exists 1. reflexivity.
  - reflexivity.
  - exists s'. split_and!; assumption.
Defined.

(** X10. Nothing but a move may touch a checked pointer that holds the
    deleted value: its destructor, its reset, an assignment to it and a copy
    of it all call the counting functions through the all-ones address, which
    is undefined; a move construction only carries the value over. *)
Theorem deleted_value_must_not_be_released
    (s : state) (x : positive) :
  ptrs s !! x = Some RawPtrTraits.hashTableDeletedValue ->
  counts s !! RawPtrTraits.hashTableDeletedValue = None ->
  CheckedPtr.dtor x s = UndefinedBehavior
  /\ CheckedPtr.assign_nullptr x s = UndefinedBehavior
  /\ (forall p, valid_target s p ->
        CheckedPtr.assign_raw x p s = UndefinedBehavior)
  /\ (forall y, CheckedPtr.ctor_copy y x s = UndefinedBehavior)
  /\ (forall y, y <> x ->
        exists s', CheckedPtr.ctor_move y x s = Done (tt, s')
          /\ ptrs s' !! y = Some RawPtrTraits.hashTableDeletedValue
          /\ ptrs s' !! x = Some nullptr
          /\ counts s' = counts s).
Proof.
  intros Hx HD.
  assert (Hderef : forall s0 z (k : unit -> M unit),
             ptrs s0 !! z = Some RawPtrTraits.hashTableDeletedValue ->
             counts s0 !! RawPtrTraits.hashTableDeletedValue = None ->
             bind (CheckedPtr.derefIfNotNull z) k s0 = UndefinedBehavior).
  { intros s0 z k Hz Hn. unfold CheckedPtr.derefIfNotNull.
    rewrite bind_bind. erewrite bind_load by done. cbv beta zeta.
    unfold RawPtrTraits.unwrap.
    rewrite (to_bool_nonnull _ deleted_value_nonnull).
    unfold bind, decrementPtrCount. by rewrite Hn. }
  split_and!.
  - unfold CheckedPtr.dtor. by apply Hderef.
  - unfold CheckedPtr.assign_nullptr,
      CheckedPtr.unregisterCheckedPtrIfNecessary.
    rewrite bind_ret. by apply Hderef.
  - intros p Hp. pose proof (fresh_ptr_None s) as Hfresh.
    assert (fresh (dom (ptrs s)) <> x) as Hne by congruence.
    unfold CheckedPtr.assign_raw, CheckedPtr.unregisterCheckedPtrIfNecessary.
    rewrite bind_ret, bind_alloca. rewrite ctor_raw_run by done.
    erewrite swap_run;
      [| simpl; by rewrite lookup_insert_ne | simpl; apply lookup_insert_eq].
    unfold CheckedPtr.dtor.
    apply Hderef; simpl.
    + apply lookup_insert_eq.
    + destruct (decide (p = RawPtrTraits.hashTableDeletedValue)) as [-> |].
      * destruct Hp as [Hp | [c Hc]]; [done | congruence].
      * by rewrite acquired_lookup_ne.
  - intros y. unfold CheckedPtr.ctor_copy, CheckedPtr.refIfNotNull.
    erewrite bind_load by done. rewrite bind_init. cbv beta.
    erewrite bind_load by (simpl; apply lookup_insert_eq). cbv beta zeta.
    unfold RawPtrTraits.unwrap.
    rewrite (to_bool_nonnull _ deleted_value_nonnull).
    unfold incrementPtrCount. simpl. by rewrite HD.
  - intros y Hy. eexists. split.
    { apply construct_run. erewrite ctor_move_run by done. reflexivity. }
    simpl. split_and!; [apply lookup_insert_eq | | done].
    rewrite lookup_insert_ne by done. apply lookup_insert_eq.
Qed.

Lemma deleted_value_must_not_be_released_witness :
  CheckedPtr.dtor 1
    (State ∅ {[ 1%positive := RawPtrTraits.hashTableDeletedValue ]} ∅ [])
  = UndefinedBehavior.
Proof.
  destruct (deleted_value_must_not_be_released
              (State ∅ {[ 1%positive := RawPtrTraits.hashTableDeletedValue ]} ∅ [])
              1) as [Hd _].
  - reflexivity.
  - reflexivity.
  - exact Hd.
Defined.

(** X11. Bucket deletion keeps the counting invariant: in a state whose
    counts are right, after [customDeleteBucket] has run every live
    pointee's count is again the number of checked pointers and references
    that target it (no pointee living at the all-ones address). *)
Theorem bucket_deletion_keeps_counts `{BuildConfig}
    (s s' : state) (value : positive) :
  counted s ->
  counts s !! RawPtrTraits.hashTableDeletedValue = None ->
  HashTraits.customDeleteBucket value s = Done (tt, s') ->
  counted s'.
Proof.
  intros Hc HD Hrun. minv Hrun; simpl in *; count_solver Hc.
Qed.

Lemma bucket_deletion_keeps_counts_witness :
  counted (State {[ 16 := 0 ]}
                 {[ 1%positive := RawPtrTraits.hashTableDeletedValue ]} ∅
                 [EvStore 1 0; EvStore 2 16;
                  EvStore 1 RawPtrTraits.hashTableDeletedValue;
                  EvDecrement 16]).
Proof.
  apply (bucket_deletion_keeps_counts (H := debug_build) one_holder _ 1).
  - apply (bool_decide_unpack (counted _)). vm_compute. exact I.
  - reflexivity.
  - vm_compute. reflexivity.
Defined.

(** X12. Why the bucket deletion moves the value out first: constructing
    [CheckedPtr(HashTableDeletedValue)] over an occupied bucket directly
    leaks the increment - the count of the pointee stays one above the
    number of its holders. *)
Theorem overwriting_an_occupied_bucket_leaks
    (s s' : state) (value : positive) (p c : Z) :
  counted s ->
  ptrs s !! value = Some p -> p <> nullptr ->
  p <> RawPtrTraits.hashTableDeletedValue ->
  counts s !! p = Some c ->
  CheckedPtr.ctor_deleted value s = Done (tt, s') ->
  counts s' !! p = Some c
  /\ Z.of_nat (live_targeting p s') = c - 1
  /\ ~ counted s'.
Proof.
  intros Hc Hv Hnn HD Hl Hrun.
  unfold CheckedPtr.ctor_deleted, init in Hrun. injection Hrun as <-.
  assert (Hlive : Z.of_nat (live_targeting p
            (log (EvStore value RawPtrTraits.hashTableDeletedValue)
               (set_ptrs <[value := RawPtrTraits.hashTableDeletedValue]> s)))
          = c - 1).
  { unfold live_targeting. simpl. rewrite Nat2Z.inj_add.
    rewrite (holders_insert p value _ p) by done.
    rewrite (Hc p c Hl Hnn). unfold live_targeting, ind.
    rewrite decide_True by done. rewrite decide_False by done. lia. }
  split_and!; [done | done |].
  intros Hc'. specialize (Hc' p c Hl Hnn). lia.
Qed.

Lemma overwriting_an_occupied_bucket_leaks_witness :
  exists s', CheckedPtr.ctor_deleted 1 one_holder = Done (tt, s')
    /\ ~ counted s'.
Proof.
  eexists. split; [reflexivity |].
  eapply (overwriting_an_occupied_bucket_leaks one_holder _ 1 16 1).
  - apply (bool_decide_unpack (counted _)). vm_compute. exact I.
  - reflexivity.
  - discriminate.
  - discriminate.
  - reflexivity.
  - reflexivity.
Defined.

(** X13. A bucket is deleted once: after [customDeleteBucket] the slot holds
    the deleted value, so a second [customDeleteBucket] on it fails
    [ASSERT(!isDeletedValue(value))], and without assertions ends in the
    undefined release of the deleted value. *)
Theorem bucket_deletion_twice_fails `{BuildConfig}
    (s : state) (value : positive) (p : Z) :
  ptrs s !! value = Some p -> p <> RawPtrTraits.hashTableDeletedValue ->
  valid_target s p ->
  counts s !! RawPtrTraits.hashTableDeletedValue = None ->
  (HashTraits.customDeleteBucket value ;;
   HashTraits.customDeleteBucket value) s
  = if ASSERT_ENABLED then AssertionFailure else UndefinedBehavior.
Proof.
  intros Hv Hp Hvalid HD. unfold bind at 1.
  rewrite (customDeleteBucket_run value p) by done.
  match goal with |- _ ?s1 = _ => set (st := s1) end.
  assert (Hslot : ptrs st !! value = Some RawPtrTraits.hashTableDeletedValue)
    by apply lookup_insert_eq.
  assert (HD1 : counts st !! RawPtrTraits.hashTableDeletedValue = None).
  { subst st. simpl. by rewrite released_lookup_ne. }
  clearbody st.
  unfold HashTraits.customDeleteBucket, SimpleClassHashTraits.isDeletedValue,
    SimpleClassHashTraits.constructDeletedValue,
    CheckedPtr.isHashTableDeletedValue, CheckedPtr.ctor_deleted.
  rewrite bind_bind. erewrite bind_load by done. cbv beta. rewrite bind_ret.
  replace (RawPtrTraits.isHashTableDeletedValue
             RawPtrTraits.hashTableDeletedValue) with true
    by (symmetry; by apply isHashTableDeletedValue_spec).
  simpl negb. unfold bind at 1. rewrite ASSERT_false.
  destruct ASSERT_ENABLED; [done |].
  rewrite bind_alloca. erewrite ctor_move_run by done. rewrite bind_init.
  pose proof (fresh_ptr_None st) as Hfresh.
  assert (fresh (dom (ptrs st)) <> value) as Hne by congruence.
  unfold CheckedPtr.dtor, CheckedPtr.derefIfNotNull.
  rewrite bind_bind. erewrite bind_load.
  2:{ simpl. rewrite lookup_insert_ne by done. apply lookup_insert_eq. }
  cbv beta zeta. unfold RawPtrTraits.unwrap.
  rewrite (to_bool_nonnull _ deleted_value_nonnull).
  unfold bind, decrementPtrCount. simpl. by rewrite HD1.
Qed.

Lemma bucket_deletion_twice_fails_witness :
  (HashTraits.customDeleteBucket (H := debug_build) 1 ;;
   HashTraits.customDeleteBucket (H := debug_build) 1) one_holder
  = AssertionFailure.
Proof.
  apply (bucket_deletion_twice_fails (H := debug_build) one_holder 1 16).
  - reflexivity.
  - discriminate.
  - right. exists 1. reflexivity.
  - reflexivity.
Defined.

(** ** Assignments *)

(** X14. [x = nullptr] and [x = p] with a null raw pointer [p] end in the
    same counts, slots and references: the overload for [std::nullptr_t],
    which releases in place, and the copy-and-swap overload for [T*] differ
    only in the order of their events. *)
Theorem null_assignments_agree (s : state) (x : positive) (old : Z) :
  ptrs s !! x = Some old -> valid_target s old ->
  exists s1 s2,
    CheckedPtr.assign_nullptr x s = Done (tt, s1)
    /\ CheckedPtr.assign_raw x nullptr s = Done (tt, s2)
    /\ counts s1 = counts s2 /\ ptrs s1 = ptrs s2 /\ refs s1 = refs s2
    /\ ptrs s1 !! x = Some nullptr.
Proof.
  intros Hx Hold. eexists. eexists.
  split; [by apply assign_nullptr_run |].
  split; [apply assign_raw_run; [done | done | by left] |].
  simpl. split_and!; try done. apply lookup_insert_eq.
Qed.

Lemma null_assignments_agree_witness :
  exists s1 s2,
    CheckedPtr.assign_nullptr 1 one_holder = Done (tt, s1)
    /\ CheckedPtr.assign_raw 1 nullptr one_holder = Done (tt, s2)
    /\ counts s1 = counts s2 /\ ptrs s1 = ptrs s2.
Proof.
  destruct (null_assignments_agree one_holder 1 16)
    as (s1 & s2 & H1 & H2 & Hc & Hp & _).
  - reflexivity.
  - right. exists 1. reflexivity.
  - exists s1, s2. split_and!; assumption.
Defined.

(** X15. Copy assignment is idempotent: [x = y; x = y;] ends in the same
    counts, slots and references as [x = y;]. *)
Theorem copy_assignment_idempotent (s : state) (x y : positive) (old v : Z) :
  ptrs s !! x = Some old -> ptrs s !! y = Some v ->
  valid_target s old -> valid_target s v ->
  exists s1 s2,
    CheckedPtr.assign_copy x y s = Done (tt, s1)
    /\ (CheckedPtr.assign_copy x y ;; CheckedPtr.assign_copy x y) s
       = Done (tt, s2)
    /\ counts s2 = counts s1 /\ ptrs s2 = ptrs s1 /\ refs s2 = refs s1.
Proof.
  intros Hx Hy Hold Hv. eexists. eexists.
  split; [by eapply assign_copy_run |]. split.
  - unfold bind. erewrite assign_copy_run by done.
    eapply (assign_copy_run x y v v); simpl.
    + apply lookup_insert_eq.
    + destruct (decide (x = y)) as [-> |].
      * apply lookup_insert_eq.
      * by rewrite lookup_insert_ne.
    + destruct Hv as [-> | Hv]; [by left | right].
      by apply released_is_Some, acquired_is_Some.
    + destruct Hv as [-> | Hv]; [by left | right].
      by apply released_is_Some, acquired_is_Some.
  - simpl. split_and!; [| | done].
    + apply released_acquired.
    + apply insert_insert_eq.
Qed.

Lemma copy_assignment_idempotent_witness :
  exists s1 s2,
    CheckedPtr.assign_copy 1 2 two_holders = Done (tt, s1)
    /\ (CheckedPtr.assign_copy 1 2 ;; CheckedPtr.assign_copy 1 2) two_holders
       = Done (tt, s2)
    /\ counts s2 = counts s1 /\ ptrs s2 = ptrs s1.
Proof.
  destruct (copy_assignment_idempotent two_holders 1 2 16 16)
    as (s1 & s2 & H1 & H2 & Hc & Hp & _).
  - reflexivity.
  - reflexivity.
  - right. exists 2. reflexivity.
  - right. exists 2. reflexivity.
  - exists s1, s2. split_and!; assumption.
Defined.

(** X16. What an assignment from a raw pointer changes, and what it leaves
    alone: the slot assigned to holds the new pointer and every other
    checked pointer and every checked reference is as before; the new
    pointee gains one, the old pointee loses one, and the count of every
    other pointee is untouched.  Old and new being the same pointee, no
    count changes. *)
Theorem assignment_effect (s : state) (x : positive) (old p : Z) :
  ptrs s !! x = Some old -> valid_target s old -> valid_target s p ->
  exists s',
    CheckedPtr.assign_raw x p s = Done (tt, s')
    /\ ptrs s' !! x = Some p
    /\ (forall z, z <> x -> ptrs s' !! z = ptrs s !! z)
    /\ refs s' = refs s
    /\ (forall q, q <> old -> q <> p -> counts s' !! q = counts s !! q)
    /\ (old = p -> counts s' = counts s)
    /\ (old <> p -> forall c, p <> nullptr -> counts s !! p = Some c ->
          counts s' !! p = Some (c + 1))
    /\ (old <> p -> forall c, old <> nullptr -> counts s !! old = Some c ->
          counts s' !! old = Some (c - 1)).
Proof.
  intros Hx Hold Hp. eexists. split; [by apply assign_raw_run |].
  simpl. split_and!.
  - apply lookup_insert_eq.
  - intros z Hz. by rewrite lookup_insert_ne.
  - done.
  - intros q Hq1 Hq2. rewrite released_lookup_ne by done.
    by apply acquired_lookup_ne.
  - intros ->. apply released_acquired.
  - intros Hne c Hnn Hc. rewrite released_lookup_ne by done.
    by apply acquired_lookup_eq.
  - intros Hne c Hnn Hc. apply released_lookup_eq; [done |].
    by rewrite acquired_lookup_ne.
Qed.

Lemma assignment_effect_witness :
  exists s', CheckedPtr.assign_raw 1 nullptr one_holder = Done (tt, s')
    /\ ptrs s' !! 1%positive = Some nullptr
    /\ counts s' !! 16 = Some 0.
Proof.
  destruct (assignment_effect one_holder 1 16 nullptr)
    as (s' & Hrun & Hp & _ & _ & _ & _ & _ & Hold).
  - reflexivity.
  - right. exists 1. reflexivity.
  - by left.
  - exists s'. split_and!; [exact Hrun | exact Hp |].
    apply (Hold ltac:(discriminate) 1); [discriminate | reflexivity].
Defined.

(** X17. Moving out and back: [CheckedPtr y { WTFMove(x) }; x = WTFMove(y);]
    and the destruction of [y] restore every slot, and no count is touched
    on the way - whatever [x] held, a live pointee or not. *)
Theorem move_out_and_back (s : state) (x y : positive) (v : Z) :
  ptrs s !! x = Some v -> ptrs s !! y = None ->
  exists s',
    (CheckedPtr.ctor_move y x ;; CheckedPtr.assign_move x y ;;
     CheckedPtr.dtor y) s = Done (tt, s')
    /\ counts s' = counts s /\ ptrs s' = ptrs s /\ refs s' = refs s
    /\ Forall (fun e => forall q, e <> EvIncrement q /\ e <> EvDecrement q)
              (drop (length (trace s)) (trace s')).
Proof.
  intros Hx Hy. assert (x <> y) as Hne by congruence.
  eexists. split.
  - erewrite ctor_move_run by done. unfold bind at 1.
    erewrite (assign_move_run x y nullptr v); [| done | simpl .. ].
    + apply construct_run. erewrite dtor_run; [reflexivity | simpl | by left].
      rewrite lookup_insert_ne by done. apply lookup_insert_eq.
    + rewrite lookup_insert_ne by done. apply lookup_insert_eq.
    + apply lookup_insert_eq.
    + by left.
  - simpl. split_and!; try done.
    + apply map_eq. intros i.
      repeat first [rewrite lookup_insert | rewrite lookup_delete].
      repeat case_decide; simplify_eq; done.
    + rewrite <- !app_assoc. rewrite drop_app_length.
      change (decr_events nullptr) with (@nil event). simpl.
      repeat (apply Forall_cons_2; [intros q; split; discriminate |]).
      apply Forall_nil_2.
Qed.

Lemma move_out_and_back_witness :
  exists s',
    (CheckedPtr.ctor_move 2 1 ;; CheckedPtr.assign_move 1 2 ;;
     CheckedPtr.dtor 2) one_holder = Done (tt, s')
    /\ counts s' = counts one_holder /\ ptrs s' = ptrs one_holder.
Proof.
  destruct (move_out_and_back one_holder 1 2 16) as (s' & Hrun & Hc & Hp & _).
  - reflexivity.
  - reflexivity.
  - exists s'. split_and!; assumption.
Defined.

(** X18. Resetting a checked pointer before it is destroyed changes nothing
    in the end: [x = nullptr;] followed by the destructor ends in the same
    counts, slots and references as the destructor alone, and the pointee is
    decremented once, not twice. *)
Theorem reset_then_destroy (s : state) (x : positive) (old : Z) :
  ptrs s !! x = Some old -> valid_target s old ->
  exists s1 s2,
    CheckedPtr.dtor x s = Done (tt, s1)
    /\ (CheckedPtr.assign_nullptr x ;; CheckedPtr.dtor x) s = Done (tt, s2)
    /\ counts s2 = counts s1 /\ ptrs s2 = ptrs s1 /\ refs s2 = refs s1
    /\ (forall c, old <> nullptr -> counts s !! old = Some c ->
          counts s2 !! old = Some (c - 1)).
Proof.
  intros Hx Hold. eexists. eexists. split.
  { apply construct_run. erewrite dtor_run by done. reflexivity. }
  split.
  - unfold bind at 1. erewrite assign_nullptr_run by done.
    apply construct_run.
    erewrite dtor_run; [reflexivity | simpl; apply lookup_insert_eq | by left].
  - simpl. split_and!; try done.
    + apply delete_insert_eq.
    + intros c Hnn Hc. rewrite released_nullptr. by apply released_lookup_eq.
Qed.

Lemma reset_then_destroy_witness :
  exists s2,
    (CheckedPtr.assign_nullptr 1 ;; CheckedPtr.dtor 1) one_holder
    = Done (tt, s2)
    /\ counts s2 !! 16 = Some 0.
Proof.
  destruct (reset_then_destroy one_holder 1 16)
    as (s1 & s2 & _ & Hrun & _ & _ & _ & Hc).
  - reflexivity.
  - right. exists 1. reflexivity.
  - exists s2. split; [exact Hrun |].
    apply (Hc 1); [discriminate | reflexivity].
Defined.

Lemma count_history_app p c t1 t2 :
  count_history p c (t1 ++ t2)
  = count_history p c t1 ++ count_history p (replay p c t1) t2.
Proof.
  revert c. induction t1 as [| e t1 IH]; intros c; simpl; [done |].
  destruct e as [q | q | x v]; try case_decide; simpl; by rewrite IH.
Qed.

Lemma replay_app p c t1 t2 :
  replay p c (t1 ++ t2) = replay p (replay p c t1) t2.
Proof.
  revert c. induction t1 as [| e t1 IH]; intros c; simpl; [done |].
  destruct e as [q | q | x v]; by rewrite IH.
Qed.

Lemma counted_one_ref s r p c :
  counted s -> p <> nullptr -> counts s !! p = Some c ->
  refs s !! r = Some p -> 1 <= c.
Proof.
  intros Hc Hp Hl Hr. rewrite (Hc p c Hl Hp). unfold live_targeting.
  pose proof (holders_pos p r _ Hr). lia.
Qed.

Lemma counted_nonneg s p c :
  counted s -> p <> nullptr -> counts s !! p = Some c -> 0 <= c.
Proof. intros Hc Hp Hl. rewrite (Hc p c Hl Hp). lia. Qed.

Ltac learn_holders Hc :=
  repeat match goal with
  | Hx : ptrs ?s !! ?x = Some ?p, Hl : counts ?s !! ?p = Some ?c,
    Hp : ?p <> nullptr |- _ =>
      lazymatch goal with
      | _ : 1 <= c |- _ => fail
      | _ => pose proof (counted_one_holder s x p c Hc Hp Hl Hx)
      end
  | Hx : refs ?s !! ?x = Some ?p, Hl : counts ?s !! ?p = Some ?c,
    Hp : ?p <> nullptr |- _ =>
      lazymatch goal with
      | _ : 1 <= c |- _ => fail
      | _ => pose proof (counted_one_ref s x p c Hc Hp Hl Hx)
      end
  end.

Lemma exec_history `{BuildConfig} (o : op) (s s' : state) (u : unit) (p c : Z) :
  counted s -> exec o s = Done (u, s') ->
  p <> nullptr -> counts s !! p = Some c ->
  exists evs, trace s' = trace s ++ evs
    /\ Forall (fun n => 0 <= n) (count_history p c evs)
    /\ counts s' !! p = Some (replay p c evs).
Proof.
  intros Hc Hrun Hp Hl.
  pose proof (counted_nonneg s p c Hc Hp Hl) as H0.
  destruct o; simpl in Hrun; minv Hrun; simpl in *.
  all: eexists; split;
    [rewrite <- ?app_assoc; simpl; first [reflexivity
       | symmetry; apply app_nil_r] |].
  all: simpl; split_lookups; repeat case_decide; simplify_eq;
    learn_holders Hc.
  all: split; [repeat first [apply Forall_nil_2 | apply Forall_cons_2; [lia |]]
              | first [done | f_equal; lia]].
Qed.

(** ** The counter never underflows *)

(** X19. Along every run of a program that starts with right counts, the
    count of a live pointee never goes below zero, not even between two
    steps of one operation: replaying the increments and decrements of the
    run in their order, every value reached is at least zero, and the value
    reached last is the count the pointee ends with. *)
Theorem counts_never_underflow `{BuildConfig}
    (prog : list op) (s s' : state) (p c : Z) :
  counted s -> run prog s = Done (tt, s') ->
  p <> nullptr -> counts s !! p = Some c ->
  exists evs, trace s' = trace s ++ evs
    /\ Forall (fun n => 0 <= n) (count_history p c evs)
    /\ counts s' !! p = Some (replay p c evs).
Proof.
  revert s c. induction prog as [| o prog IH]; intros s c Hc Hrun Hp Hl;
    simpl in Hrun.
  - apply ret_Done in Hrun as [_ ->]. exists []. rewrite app_nil_r.
    split_and!; [done | apply Forall_nil_2 | done].
  - apply bind_Done in Hrun as ([] & s1 & Ho & Hrest).
    destruct (exec_history o s s1 tt p c Hc Ho Hp Hl) as (e1 & Ht1 & Hf1 & Hc1).
    destruct (IH s1 (replay p c e1)) as (e2 & Ht2 & Hf2 & Hc2);
      [by eapply exec_counted | done | done | done |].
    exists (e1 ++ e2). split_and!.
    + by rewrite Ht2, Ht1, app_assoc.
    + rewrite count_history_app. apply Forall_app. done.
    + by rewrite replay_app.
Qed.

Lemma counts_never_underflow_witness :
  exists evs, trace scenario_state = [] ++ evs
    /\ Forall (fun n => 0 <= n) (count_history 16 0 evs)
    /\ counts scenario_state !! 16 = Some (replay 16 0 evs).
Proof.
  apply (counts_never_underflow (H := debug_build)
           scenario (fresh_pointee 16) scenario_state 16 0).
  - apply (bool_decide_unpack (counted _)). vm_compute. exact I.
  - vm_compute. reflexivity.
  - discriminate.
  - reflexivity.
Defined.

Lemma holders_zero p (m : gmap positive Z) :
  holders p m = 0%nat <-> forall x, m !! x <> Some p.
Proof.
  unfold holders. rewrite map_size_empty_iff, map_empty_filter.
  unfold map_Forall. simpl. split.
  - intros Hm x Hx. by apply (Hm x p).
  - intros Hm x v Hx ->. by apply (Hm x).
Qed.

(** ** What the count tells the pointee *)

(** X20. After every run of a program that starts with right counts, the
    count of a live pointee is zero exactly when no checked pointer and no
    checked reference targets it; as long as one checked pointer targets it,
    the count is at least one. *)
Theorem count_zero_iff_untargeted `{BuildConfig}
    (prog : list op) (s s' : state) (p c : Z) :
  counted s -> run prog s = Done (tt, s') ->
  p <> nullptr -> counts s' !! p = Some c ->
  (c = 0 <-> (forall x, ptrs s' !! x <> Some p)
             /\ (forall r, refs s' !! r <> Some p))
  /\ (forall x, ptrs s' !! x = Some p -> 1 <= c).
Proof.
  intros Hc Hrun Hp Hl.
  destruct (run_counted prog s s' tt Hc Hrun) as [Hc' _].
  split.
  - rewrite (Hc' p c Hl Hp). unfold live_targeting.
    rewrite <- !holders_zero. lia.
  - intros x Hx. by eapply counted_one_holder.
Qed.

Lemma count_zero_iff_untargeted_witness :
  ptrs scenario_state !! 1%positive = Some 16 /\ 1 <= 2.
Proof.
  destruct (count_zero_iff_untargeted (H := debug_build)
              scenario (fresh_pointee 16) scenario_state 16 2) as [_ Hpos].
  - apply (bool_decide_unpack (counted _)). vm_compute. exact I.
  - vm_compute. reflexivity.
  - discriminate.
  - reflexivity.
  - split; [reflexivity |]. apply (Hpos 1%positive). reflexivity.
Defined.

Lemma released_comm a b (m : gmap Z Z) :
  released a (released b m) = released b (released a m).
Proof.
  unfold released.
  destruct (to_bool a) eqn:Ha, (to_bool b) eqn:Hb; try done.
  destruct (decide (a = b)) as [-> | Hne]; [done |].
  destruct (m !! a) as [ca|] eqn:Hma, (m !! b) as [cb|] eqn:Hmb;
    rewrite ?lookup_insert_ne, ?Hma, ?Hmb by done; try done.
  by apply insert_insert_ne.
Qed.

(** ** A move is a copy followed by a reset of the source *)

(** X21. Between two distinct checked pointers, move construction and move
    assignment end in the same counts, slots and references as the copy
    followed by [source = nullptr]: the move only spares the increment and
    the decrement. *)
Theorem move_is_copy_then_reset (s : state) (x y : positive) (v : Z) :
  x <> y -> ptrs s !! y = Some v -> valid_target s v ->
  (exists s1 s2,
     CheckedPtr.ctor_move x y s = Done (tt, s1)
     /\ (CheckedPtr.ctor_copy x y ;; CheckedPtr.assign_nullptr y) s
        = Done (tt, s2)
     /\ counts s1 = counts s2 /\ ptrs s1 = ptrs s2 /\ refs s1 = refs s2)
  /\ (forall old, ptrs s !! x = Some old -> valid_target s old ->
        exists s1 s2,
          CheckedPtr.assign_move x y s = Done (tt, s1)
          /\ (CheckedPtr.assign_copy x y ;; CheckedPtr.assign_nullptr y) s
             = Done (tt, s2)
          /\ counts s1 = counts s2 /\ ptrs s1 = ptrs s2 /\ refs s1 = refs s2).
Proof.
  intros Hne Hy Hv. split.
  - eexists. eexists. split.
    { apply construct_run. erewrite ctor_move_run by done. reflexivity. }
    split.
    { erewrite ctor_copy_run by done.
      apply assign_nullptr_run; simpl.
      - by rewrite lookup_insert_ne.
      - destruct Hv as [-> | Hv]; [by left | right].
        by apply acquired_is_Some. }
    simpl. split_and!; [| | done].
    + symmetry. apply released_acquired.
    + by apply insert_insert_ne.
  - intros old Hx Hold. eexists. eexists.
    split; [by eapply assign_move_run |]. split.
    { unfold bind. erewrite assign_copy_run by done.
      apply assign_nullptr_run; simpl.
      - by rewrite lookup_insert_ne.
      - destruct Hv as [-> | Hv]; [by left | right].
        by apply released_is_Some, acquired_is_Some. }
    simpl. split_and!; [| | done].
    + rewrite released_comm. by rewrite released_acquired.
    + by apply insert_insert_ne.
Qed.

Lemma move_is_copy_then_reset_witness :
  exists s1 s2,
    CheckedPtr.assign_move 1 2 two_holders = Done (tt, s1)
    /\ (CheckedPtr.assign_copy 1 2 ;; CheckedPtr.assign_nullptr 2) two_holders
       = Done (tt, s2)
    /\ counts s1 = counts s2 /\ ptrs s1 = ptrs s2.
Proof.
  destruct (move_is_copy_then_reset two_holders 1 2 16) as [_ Hassign].
  - discriminate.
  - reflexivity.
  - right. exists 2. reflexivity.
  - destruct (Hassign 16) as (s1 & s2 & H1 & H2 & Hc & Hp & _).
    + reflexivity.
    + right. exists 2. reflexivity.
    + exists s1, s2. split_and!; assumption.
Defined.
